(** * obsidian-csv-document: the CSV table view

    A shallow embedding of [CSVView] and of the delimited-text codec it
    calls, followed by the properties of the specification. The view is
    the latest of the three variants in the sources, the one with the
    draft row; [getViewData], [setViewData], the blur listener of the
    data cells and [setupColumnResize] read the same in the variants
    that have them.

    JavaScript strings are modelled as [string] (sequences of 8-bit
    characters), row objects as association lists in the order
    [Object.keys] enumerates the properties, arrays as lists, pixel coordinates as [Z]. An [await] is modelled as
    running to completion: a listener is one atomic transition. *)

From Stdlib Require Import ZArith Lia Ascii String.
From stdpp Require Import base list strings.

(** ** Characters and strings *)

Definition quoteChar : ascii := "034"%char.
Definition delimiter : ascii := ","%char.
Definition newline : ascii := "010"%char.

Definition nl : string := String newline "".

(** White space removed by [String.prototype.trim], restricted to the
    8-bit characters: TAB, LF, VT, FF, CR, SPACE and NBSP. *)
Definition is_ws (c : ascii) : bool :=
  let n := nat_of_ascii c in
  ((9 <=? n) && (n <=? 13)) || (n =? 32) || (n =? 160).

Fixpoint trim_start (s : string) : string :=
  match s with
  | String c s' => if is_ws c then trim_start s' else s
  | EmptyString => EmptyString
  end.

Definition trim (s : string) : string :=
  String.rev (trim_start (String.rev (trim_start s))).

(** [s.trim() !== ""], which is also the truthiness of [s.trim()]. *)
Definition has_content (s : string) : bool :=
  negb (bool_decide (trim s = "")).

(** ** Row objects

    A row is a JavaScript object with string keys, kept as the list of
    its properties in the order [Object.keys] and [Object.values]
    enumerate them: the keys that are array indices first, in ascending
    numeric order, then the other keys in the order they were added.
    [o[k]] is [obj_get] and [o[k] = v] is [obj_set], which overwrites the
    value of an existing key in place and adds a new key at its place in
    that order. *)

Definition Row : Type := list (string * string).

Fixpoint obj_get (k : string) (o : Row) : option string :=
  match o with
  | [] => None
  | (k', v) :: o' => if decide (k' = k) then Some v else obj_get k o'
  end.

Definition is_digit (c : ascii) : bool :=
  let n := nat_of_ascii c in (48 <=? n) && (n <=? 57).

Fixpoint digits_value (acc : N) (s : string) : option N :=
  match s with
  | EmptyString => Some acc
  | String c s' =>
      if is_digit c then digits_value (acc * 10 + (N_of_ascii c - 48))%N s' else None
  end.

(** The array index a key stands for: a canonical decimal numeral (no
    leading zero) up to 2^32 - 2. *)
Definition array_index (k : string) : option N :=
  match k with
  | EmptyString => None
  | String c s' =>
      if decide (c = "0"%char) then (if decide (s' = "") then Some 0%N else None)
      else
        match digits_value 0 k with
        | Some n => if (n <=? 4294967294)%N then Some n else None
        | None => None
        end
  end.

(** Whether the new key [k] is enumerated before the key [k']. *)
Definition enumerated_before (k k' : string) : bool :=
  match array_index k, array_index k' with
  | Some n, Some n' => (n <? n')%N
  | Some _, None => true
  | None, _ => false
  end.

Fixpoint obj_update (k v : string) (o : Row) : Row :=
  match o with
  | [] => []
  | (k', v') :: o' =>
      if decide (k' = k) then (k, v) :: o' else (k', v') :: obj_update k v o'
  end.

Fixpoint obj_insert (k v : string) (o : Row) : Row :=
  match o with
  | [] => [(k, v)]
  | (k', v') :: o' =>
      if enumerated_before k k' then (k, v) :: o else (k', v') :: obj_insert k v o'
  end.

Definition obj_set (k v : string) (o : Row) : Row :=
  match obj_get k o with
  | Some _ => obj_update k v o
  | None => obj_insert k v o
  end.

(** [String(value)] of a property read: a missing property is
    [undefined]. *)
Definition String_of (v : option string) : string :=
  match v with
  | Some s => s
  | None => "undefined"
  end.

(** [Papa.ParseResult]: the row objects and [meta.fields], which the
    type declares optional. *)
Record ParseResult := mkParseResult {
  data : list Row;
  meta_fields : option (list string)
}.

(** ** The delimited-text codec *)

Module Papa.

(** Scanner states: at the start of a line, at the start of a field
    after a delimiter, inside an unquoted field, inside a quoted field,
    and just after a quote character met inside a quoted field. *)
Inductive ScanState := LineStart | FieldStart | InField | InQuotes | QuoteSeen.

(** Modelled from the spec: the record splitter of [Papa.parse]
    (PapaParse is a third-party package, its source is not part of the
    repository). Records are separated by line breaks, cells by the
    delimiter; a cell wrapped in double quotes may hold delimiters,
    line breaks and doubled quotes. [fld] is the cell being read, [rec]
    the cells of the current record, [out] the finished records. *)
Fixpoint scan (st : ScanState) (fld : string) (rec : list string)
    (out : list (list string)) (s : string) : list (list string) :=
  match s with
  | EmptyString =>
      match st with
      | LineStart => out
      | _ => out ++ [rec ++ [fld]]
      end
  | String c s' =>
      match st with
      | LineStart | FieldStart =>
          if decide (c = quoteChar) then scan InQuotes "" rec out s'
          else if decide (c = delimiter) then scan FieldStart "" (rec ++ [""]) out s'
          else if decide (c = newline) then scan LineStart "" [] (out ++ [rec ++ [""]]) s'
          else scan InField (String c "") rec out s'
      | InField =>
          if decide (c = delimiter) then scan FieldStart "" (rec ++ [fld]) out s'
          else if decide (c = newline) then scan LineStart "" [] (out ++ [rec ++ [fld]]) s'
          else scan InField (fld +:+ String c "") rec out s'
      | InQuotes =>
          if decide (c = quoteChar) then scan QuoteSeen fld rec out s'
          else scan InQuotes (fld +:+ String c "") rec out s'
      | QuoteSeen =>
          if decide (c = quoteChar) then scan InQuotes (fld +:+ String c "") rec out s'
          else if decide (c = delimiter) then scan FieldStart "" (rec ++ [fld]) out s'
          else if decide (c = newline) then scan LineStart "" [] (out ++ [rec ++ [fld]]) s'
          else scan InField (fld +:+ String c "") rec out s'
      end
  end.

(** Modelled from the spec: the records of a text, scanned from the
    start of its first line. *)
Definition records (text : string) : list (list string) :=
  scan LineStart "" [] [] text.

(** Modelled from the spec: an empty line, which [parse] skips. It reads
    as the record of one empty cell. *)
Definition empty_line (r : list string) : Prop := r = [""].

(** The key under which a row keeps the cells of a record that come
    after the last header name. *)
Definition extra_field : string := "__parsed_extra".

(** [row[extra_field] = row[extra_field] || []] followed by [push]: the
    array of extra cells is kept as the text [String] gives for it (its
    elements separated by commas), which is how the view and the
    serializer read it. *)
Definition push_extra (cell : string) (row : Row) : Row :=
  obj_set extra_field
    (match obj_get extra_field row with
     | Some cells => cells +:+ String delimiter cell
     | None => cell
     end) row.

Definition set_field (field cell : string) (row : Row) : Row :=
  if decide (field = extra_field) then push_extra cell row
  else obj_set field cell row.

(** A record mapped cell by cell into a row object: the cell at the
    position of a header name is stored under that name, a cell after
    the last header name is pushed to the extra cells, and a header name
    without a cell is left out of the row. No record is dropped. *)
Fixpoint processRow (fields cells : list string) (row : Row) : Row :=
  match cells with
  | [] => row
  | cell :: cells' =>
      match fields with
      | f :: fields' => processRow fields' cells' (set_field f cell row)
      | [] => processRow [] cells' (push_extra cell row)
      end
  end.

Definition mkRow (fields cells : list string) : Row := processRow fields cells [].

(** [Papa.parse(text, {header: true, skipEmptyLines: true})]
    (PapaParse, third-party, not under src/), for texts whose cells are
    separated by commas and whose lines end with a line feed. Empty
    lines are skipped, the first remaining record is the header and
    defines the column sequence, and every later record becomes a row
    object, whatever the number of its cells. The header is kept as
    read. *)
Definition parse (text : string) : ParseResult :=
  match filter (λ r, ¬ empty_line r) (records text) with
  | [] => {| data := []; meta_fields := Some [] |}
  | header :: rest =>
      {| data := mkRow header <$> rest; meta_fields := Some header |}
  end.

(** Modelled from the spec: the quoting rule of the codec. A value is
    wrapped in double quotes if it contains the delimiter, a quote or a
    line break; embedded quotes are doubled. *)
Fixpoint needs_quotes (s : string) : bool :=
  match s with
  | EmptyString => false
  | String c s' =>
      bool_decide (c = delimiter) || bool_decide (c = quoteChar)
      || bool_decide (c = newline) || needs_quotes s'
  end.

(** Modelled from the spec: embedded quotes are doubled. *)
Fixpoint escape (s : string) : string :=
  match s with
  | EmptyString => EmptyString
  | String c s' =>
      if decide (c = quoteChar) then String quoteChar (String quoteChar (escape s'))
      else String c (escape s')
  end.

(** Modelled from the spec: a cell as it is written. *)
Definition quote_field (s : string) : string :=
  if needs_quotes s then String quoteChar (escape s +:+ String quoteChar "")
  else s.

(** Modelled from the spec: [parts.join(sep)]; the last part is not
    followed by the separator. *)
Fixpoint join (sep : ascii) (parts : list string) : string :=
  match parts with
  | [] => ""
  | [p] => p
  | p :: ps => p +:+ String sep (join sep ps)
  end.

(** Modelled from the spec: a record as it is written, its cells
    separated by the delimiter. *)
Definition record_line (cells : list string) : string :=
  join delimiter (quote_field <$> cells).

(** Modelled from the spec: the cells of a row in column order; a
    missing property is written as the empty cell. *)
Definition row_cells (cols : list string) (r : Row) : list string :=
  (λ c, default "" (obj_get c r)) <$> cols.

(** Modelled from the spec: [serialize(Table)] emits the header record
    followed by one record per row, in column and row order, the
    records separated by line breaks. *)
Definition serialize (cols : list string) (rows : list Row) : string :=
  join newline (record_line cols :: (record_line ∘ row_cells cols <$> rows)).

(** Modelled from the spec: [Papa.unparse(rows)] (third-party, not under
    src/). The view hands it the array of row objects only, so the
    column names can only be the keys of the row objects: the header
    is taken from the first row, and with no row there is no header to
    emit. *)
Definition unparse (rows : list Row) : string :=
  match rows with
  | [] => ""
  | r0 :: _ => serialize (r0.*1) rows
  end.

(** *** Notions for reasoning about the scanner *)





(** A record that is read back as written: it has a cell and is not
    the single empty cell of an empty line. *)
Definition written (r : list string) : Prop := r ≠ [] ∧ r ≠ [""].





End Papa.


(** ** The grid

    The rows of [tbody] in document order. A row remembers whether it
    carries the class [new-row], which code path built it (that fixes the
    listeners on its cells and the variables they captured), and its
    cells. *)

Inductive Wiring :=
| DraftRow                  (* built by renderTable: focus, blur, keydown *)
| SpawnedDraftRow           (* built by addNewEmptyRow: focus only *)
| DataRow (rowIndex : nat)  (* built by renderTable: dblclick, blur, keydown *)
| RebuiltRow.               (* built by rebuildRowWithMarkdown: dblclick only *)

Inductive Mode := Display | Editing.

(** A cell: the field its listeners captured, the [textContent] of its
    [csv-cell-edit] div, and which of the two divs is shown. *)
Record Cell := mkCell {
  cell_field : string;
  textContent : string;
  mode : Mode
}.

Record TR := mkTR {
  new_row : bool;
  wiring : Wiring;
  cells : list Cell
}.

(** The view: [this.csvData] (undefined until the first render), the
    body of the table, the element that has the focus, the number of
    [requestSave] calls and the texts handed to
    [renderMarkdownWithLinks], oldest first. *)
Record CSVView := mkView {
  csvData : option ParseResult;
  tbody : list TR;
  focused : option (nat * nat);
  saveRequests : nat;
  renderCalls : list string
}.

(** How a listener ends: it returns, or a [TypeError] is thrown (a
    property of [undefined] is read). *)
Inductive Completion (A : Type) :=
| Normal (a : A)
| Throw.
Arguments Normal {A} a.
Arguments Throw {A}.

Definition fresh : CSVView :=
  {| csvData := None; tbody := []; focused := None;
     saveRequests := 0; renderCalls := [] |}.

(** [result.meta?.fields || []]. *)
Definition fields_or_empty (r : ParseResult) : list string :=
  default [] (meta_fields r).

(** The draft row of [renderTable] and of [addNewEmptyRow]: one empty
    editable cell per field. *)
Definition emptyRow (w : Wiring) (fields : list string) : TR :=
  {| new_row := true; wiring := w;
     cells := (λ f, mkCell f "" Editing) <$> fields |}.

(** The cells of a data row, as [renderTable] and
    [rebuildRowWithMarkdown] build them. *)
Definition markdownCells (fields : list string) (row : Row) : list Cell :=
  (λ f, mkCell f (String_of (obj_get f row)) Display) <$> fields.

Definition dataRow (fields : list string) (rowIndex : nat) (row : Row) : TR :=
  {| new_row := false; wiring := DataRow rowIndex;
     cells := markdownCells fields row |}.

(** The texts rendered for one row, in column order. *)
Definition rowRenders (fields : list string) (row : Row) : list string :=
  (λ f, String_of (obj_get f row)) <$> fields.

Section View.

(** The two entry points of the codec, as the view calls them. *)
Variable Papa_parse : string → ParseResult.
Variable Papa_unparse : list Row → string.

(** [renderTable]: the content of the view is emptied, the text is
    parsed and the result kept in [this.csvData]; when [meta.fields] is
    there the draft row is built first, then one row per element of
    [data] (each is a row object, so the [typeof] guard holds), every
    cell of which is rendered. *)
Definition renderTable (text : string) (v : CSVView) : CSVView :=
  let result := Papa_parse text in
  let draft :=
    match meta_fields result with
    | Some fields => [emptyRow DraftRow fields]
    | None => []
    end in
  let fields := fields_or_empty result in
  {| csvData := Some result;
     tbody := draft ++ imap (dataRow fields) (data result);
     focused := None;
     saveRequests := saveRequests v;
     renderCalls := renderCalls v ++ concat (rowRenders fields <$> data result) |}.

Definition setViewData (text : string) (v : CSVView) : CSVView :=
  renderTable text v.

(** [getViewData]: the rows, and only the rows, are handed to
    [Papa.unparse]; the empty text while nothing was parsed. *)
Definition getViewData (v : CSVView) : string :=
  match csvData v with
  | Some r => Papa_unparse (data r)
  | None => ""
  end.

(** [isRowFilledOut]: true as soon as one cell has content. *)
Definition isRowFilledOut (row : TR) : bool :=
  existsb (λ c, has_content (textContent c)) (cells row).

(** [tbody.querySelectorAll("tr.new-row").length]. *)
Definition draftCount (rows : list TR) : nat :=
  length (filter (λ r, new_row r = true) rows).

Definition newRows (v : CSVView) : nat := draftCount (tbody v).

(** [addNewEmptyRow]: [createEl] appends the row to the body. *)
Definition addNewEmptyRow (fields : list string) (v : CSVView) : CSVView :=
  {| csvData := csvData v;
     tbody := tbody v ++ [emptyRow SpawnedDraftRow fields];
     focused := focused v;
     saveRequests := saveRequests v;
     renderCalls := renderCalls v |}.

(** [result.meta?.fields || []] as a listener captured it:
    [this.csvData] is the [result] of the render that built the row. *)
Definition capturedFields (v : CSVView) : list string :=
  match csvData v with
  | Some result => fields_or_empty result
  | None => []
  end.

(** The focus listener of a draft cell. *)
Definition draftFocus (v : CSVView) : CSVView :=
  if decide (newRows v = 1) then addNewEmptyRow (capturedFields v) v
  else v.

(** [newData[field] = cells[idx].textContent || ""] for each field;
    reading a cell that does not exist throws. *)
Fixpoint collect (fields : list string) (cs : list Cell) (newData : Row)
    : Completion Row :=
  match fields, cs with
  | [], _ => Normal newData
  | f :: fields', c :: cs' => collect fields' cs' (obj_set f (textContent c) newData)
  | _ :: _, [] => Throw
  end.

(** The blur listener of cell [c] of the draft row at position [p]. *)
Definition draftBlur (p c : nat) (v : CSVView) : Completion CSVView :=
  match tbody v !! p with
  | None => Normal v
  | Some emptyRow =>
      let newValue := default "" (textContent <$> cells emptyRow !! c) in
      if has_content newValue then
        if negb (isRowFilledOut emptyRow) then Normal v
        else
          match csvData v with
          | None => Throw
          | Some result =>
              match collect (fields_or_empty result) (cells emptyRow) [] with
              | Throw => Throw
              | Normal newData =>
                  let fields := fields_or_empty result in
                  Normal
                    {| csvData := Some {| data := newData :: data result;
                                          meta_fields := meta_fields result |};
                       tbody := <[p := {| new_row := false; wiring := RebuiltRow;
                                          cells := markdownCells fields newData |}]>
                                  (tbody v);
                       focused := focused v;
                       saveRequests := S (saveRequests v);
                       renderCalls := renderCalls v ++ rowRenders fields newData |}
              end
          end
      else Normal v
  end.

Definition showCell (m : Mode) (c : Cell) : Cell :=
  mkCell (cell_field c) (textContent c) m.

Definition setCell (p c : nat) (f : Cell → Cell) (rows : list TR) : list TR :=
  alter (λ r, mkTR (new_row r) (wiring r) (alter f c (cells r))) p rows.

(** The blur listener of a data cell: [rowIndex] and [field] are the
    variables it captured, [newValue] the text of its edit div, [p] and
    [c] its place in the body. *)
Definition dataCellBlur (rowIndex : nat) (field newValue : string)
    (p c : nat) (v : CSVView) : Completion CSVView :=
  match csvData v with
  | None => Throw
  | Some result =>
      match data result !! rowIndex with
      | Some row =>
          if decide (obj_get field row ≠ Some newValue) then
            Normal
              {| csvData := Some {| data := <[rowIndex := obj_set field newValue row]>
                                              (data result);
                                    meta_fields := meta_fields result |};
                 tbody := setCell p c (showCell Display) (tbody v);
                 focused := focused v;
                 saveRequests := S (saveRequests v);
                 renderCalls := renderCalls v ++ [newValue] |}
          else Normal v
      | None => Normal v
      end
  end.

(** The dblclick listener of a data cell. *)
Definition cellDblClick (p c : nat) (v : CSVView) : CSVView :=
  {| csvData := csvData v;
     tbody := setCell p c (showCell Editing) (tbody v);
     focused := Some (p, c);
     saveRequests := saveRequests v;
     renderCalls := renderCalls v |}.

Definition cellAt (p c : nat) (v : CSVView) : option (TR * Cell) :=
  match tbody v !! p with
  | Some r => (λ x, (r, x)) <$> cells r !! c
  | None => None
  end.

Definition withFocus (f : option (nat * nat)) (v : CSVView) : CSVView :=
  {| csvData := csvData v; tbody := tbody v; focused := f;
     saveRequests := saveRequests v; renderCalls := renderCalls v |}.

(** User events on the cell [c] of the row at position [p]. The Enter
    key reaches the listeners as these events: it calls [blur()] or
    moves the focus to the next cell. *)
Inductive Event :=
| Focus (p c : nat)
| Blur (p c : nat)
| Input (p c : nat) (text : string)
| DblClick (p c : nat).

(** The listeners an event reaches, by the wiring of its row. *)
Definition dispatch (ev : Event) (v : CSVView) : Completion CSVView :=
  match ev with
  | Focus p c =>
      match cellAt p c v with
      | Some (r, _) =>
          match wiring r with
          | DraftRow | SpawnedDraftRow => Normal (draftFocus (withFocus (Some (p, c)) v))
          | _ => Normal (withFocus (Some (p, c)) v)
          end
      | None => Normal v
      end
  | Blur p c =>
      match cellAt p c v with
      | Some (r, x) =>
          match wiring r with
          | DraftRow => draftBlur p c (withFocus None v)
          | DataRow rowIndex =>
              dataCellBlur rowIndex (cell_field x) (textContent x) p c (withFocus None v)
          | _ => Normal (withFocus None v)
          end
      | None => Normal v
      end
  | Input p c text =>
      Normal (mkView (csvData v)
                (setCell p c (λ x, mkCell (cell_field x) text (mode x)) (tbody v))
                (focused v) (saveRequests v) (renderCalls v))
  | DblClick p c =>
      match cellAt p c v with
      | Some (r, x) =>
          match wiring r, mode x with
          | (DataRow _ | RebuiltRow), Display => Normal (cellDblClick p c v)
          | _, _ => Normal v
          end
      | None => Normal v
      end
  end.

(** What the browser lets happen: an element gains focus when none has
    it, loses it or is typed into when it has it; a double click lands
    on a cell while no edit div has the focus; the host may load a text
    at any time. *)
Inductive step : CSVView → CSVView → Prop :=
| step_load text v :
    step v (setViewData text v)
| step_focus p c v v' :
    focused v = None → is_Some (cellAt p c v) →
    dispatch (Focus p c) v = Normal v' → step v v'
| step_blur p c v v' :
    focused v = Some (p, c) →
    dispatch (Blur p c) v = Normal v' → step v v'
| step_input p c text v v' :
    focused v = Some (p, c) →
    dispatch (Input p c text) v = Normal v' → step v v'
| step_dblclick p c v v' :
    focused v = None →
    dispatch (DblClick p c) v = Normal v' → step v v'.

(** The states of an active grid: a text was loaded, then events. *)
Inductive active : CSVView → Prop :=
| active_load text v : active (setViewData text v)
| active_step v v' : active v → step v v' → active v'.

End View.

(** The view over the codec above. *)
Definition load (text : string) : CSVView :=
  setViewData Papa.parse text fresh.

Definition save (v : CSVView) : string := getViewData Papa.unparse v.

(** A sequence of events, stopped by the first listener that throws. *)
Fixpoint run (evs : list Event) (v : CSVView) : Completion CSVView :=
  match evs with
  | [] => Normal v
  | ev :: evs' =>
      match dispatch ev v with
      | Normal v' => run evs' v'
      | Throw => Throw
      end
  end.

(** The rows a wiring marks with the class [new-row]. *)
Definition draftWiring (w : Wiring) : bool :=
  match w with
  | DraftRow | SpawnedDraftRow => true
  | DataRow _ | RebuiltRow => false
  end.

(** The text of the load scenario. *)
Definition sample : string := "a,b" +:+ nl +:+ "1,2" +:+ nl +:+ "3,4" +:+ nl.

(** The text of the draft scenario: three columns, one row. *)
Definition three_columns : string := "a,b,c" +:+ nl +:+ "1,2,3" +:+ nl.

(** Every row carries the class [new-row] exactly when its wiring is a
    draft wiring. *)
Definition wired (rows : list TR) : Prop :=
  Forall (λ r, new_row r = draftWiring (wiring r)) rows.

(** The invariant of the active grid: one or two draft rows, and two of
    them while the focus is in a draft row. *)
Definition draft_invariant (v : CSVView) : Prop :=
  1 ≤ newRows v ≤ 2
  ∧ wired (tbody v)
  ∧ ∀ p c r, focused v = Some (p, c) → tbody v !! p = Some r →
      new_row r = true → newRows v = 2.

(** A view after a load: [this.csvData] is set and the draft row of
    [renderTable] has a cell for every field. *)
Definition loaded (v : CSVView) : Prop :=
  ∃ result, csvData v = Some result
    ∧ Forall (λ r, wiring r = DraftRow →
                   length (fields_or_empty result) ≤ length (cells r)) (tbody v).

(** ** Column resize

    The [style.width] of the cells of every [tr] of the table, in pixels
    ([None] while unset): the header row, then the body rows. *)

Module Resize.

Record Table := mkTable {
  header : list (option Z);
  body : list (list (option Z))
}.

(** What [startResize] recorded. *)
Record Drag := mkDrag {
  startX : Z;
  startWidth : Z
}.

(** [cell = row.children[index]; if (cell) cell.style.width = ...]. *)
Definition setWidth (index : nat) (w : Z) (row : list (option Z)) :=
  <[index := Some w]> row.

(** The mousemove listener, for the column [index] of [table]
    ([th.closest('table')], possibly null). *)
Definition resize (d : Drag) (index : nat) (pageX : Z) (table : option Table)
    : option Table :=
  match table with
  | None => None
  | Some t =>
      let newWidth := (startWidth d + (pageX - startX d))%Z in
      if (50 <=? newWidth)%Z then
        Some {| header := setWidth index newWidth (setWidth index newWidth (header t));
                body := setWidth index newWidth <$> body t |}
      else Some t
  end.

(** The width shown by the cell of column [index] in a row. *)
Definition widthAt (index : nat) (row : list (option Z)) : option Z :=
  mjoin (row !! index).

End Resize.

(** ** The rest of the view *)

(** [clear]: the content of the view is emptied; [this.csvData] is left
    as it is. *)
Definition clear (v : CSVView) : CSVView :=
  {| csvData := csvData v; tbody := []; focused := None;
     saveRequests := saveRequests v; renderCalls := renderCalls v |}.

(** The file of the view, as far as the view reads it. *)
Record TFile := mkTFile {
  extension : string;
  basename : string;
  path : string
}.

(** [getViewType], [getIcon] and [getDisplayText]; [this.file] is
    undefined while no file is loaded. *)
Definition getViewType (file : option TFile) : string :=
  match file with
  | Some f => extension f +:+ "-view"
  | None => "text/plain"
  end.

Definition getIcon : string := "spreadsheet".

Definition getDisplayText (file : option TFile) : string :=
  match file with
  | Some f => basename f
  | None => "(no file)"
  end.

(** main.ts: the type under which the plugin registers the view, and the
    extensions it binds to that type. *)
Definition CSV_VIEW_TYPE : string := "csv view".

Definition registeredExtensions : list string := ["csv"].

(** The first variant of the view (csv-view.ts): a read-only table whose
    body cells are [String(field)] for the [Object.values] of each row. *)
Definition renderTable_readonly (result : ParseResult) : list string * list (list string) :=
  (fields_or_empty result, (λ row : Row, (λ v, String_of (Some v)) <$> row.*2) <$> data result).

Global Instance Wiring_eq_dec : EqDecision Wiring.
Proof. solve_decision. Defined.

(** How many rows of the body still carry the listeners of the draft row
    of [renderTable]. *)
Definition liveDrafts (rows : list TR) : nat :=
  length (filter (λ r, wiring r = DraftRow) rows).


(** What the blur listener of a data cell makes of the rows, and whether
    it changes them. *)
Definition editData (rowIndex : nat) (field newValue : string) (rows : list Row)
    : list Row :=
  match rows !! rowIndex with
  | Some row =>
      if decide (obj_get field row ≠ Some newValue)
      then <[rowIndex := obj_set field newValue row]> rows
      else rows
  | None => rows
  end.

Definition cellChanges (rowIndex : nat) (field newValue : string) (rows : list Row)
    : bool :=
  match rows !! rowIndex with
  | Some row => bool_decide (obj_get field row ≠ Some newValue)
  | None => false
  end.

(** ** A column drag

    The closure of [setupColumnResize] for one header cell: the table,
    the index of the column, what [startResize] recorded (nothing before
    the first mousedown) and whether [resize] and [stopResize] are
    registered on the document. *)

Module ColumnDrag.

Record Handle := mkHandle {
  table : option Resize.Table;
  index : nat;
  recorded : option Resize.Drag;
  listening : bool
}.

(** Mouse events: a mousedown on the resize handle, with the
    [offsetWidth] of the header cell at that time; a mousemove and a
    mouseup anywhere in the document. *)
Inductive Mouse :=
| MouseDown (pageX offsetWidth : Z)
| MouseMove (pageX : Z)
| MouseUp.

Definition startResize (pageX offsetWidth : Z) (h : Handle) : Handle :=
  {| table := table h; index := index h;
     recorded := Some (Resize.mkDrag pageX offsetWidth);
     listening := true |}.

Definition stopResize (h : Handle) : Handle :=
  {| table := table h; index := index h; recorded := recorded h;
     listening := false |}.

(** The listeners a mouse event reaches. *)
Definition mouse (ev : Mouse) (h : Handle) : Handle :=
  match ev with
  | MouseDown pageX offsetWidth => startResize pageX offsetWidth h
  | MouseMove pageX =>
      match listening h, recorded h with
      | true, Some d =>
          {| table := Resize.resize d (index h) pageX (table h);
             index := index h; recorded := recorded h; listening := true |}
      | _, _ => h
      end
  | MouseUp => if listening h then stopResize h else h
  end.

(** A sequence of mouse events. *)
Definition mice (evs : list Mouse) (h : Handle) : Handle :=
  foldl (λ h ev, mouse ev h) h evs.

(** The pointer positions that [resize] accepts, and the last of them
    in a sequence of moves. *)
Definition accepted (d : Resize.Drag) (pageX : Z) : Prop :=
  (50 ≤ Resize.startWidth d + (pageX - Resize.startX d))%Z.

Global Instance accepted_dec (d : Resize.Drag) (pageX : Z) : Decision (accepted d pageX).
Proof. unfold accepted. apply _. Defined.

Definition lastAccepted (d : Resize.Drag) (xs : list Z) : option Z :=
  last (filter (accepted d) xs).

(** No width that is set is below 50 pixels. *)
Definition floored (t : Resize.Table) : Prop :=
  Forall (Forall (λ w : option Z, ∀ z, w = Some z → (50 ≤ z)%Z))
    (Resize.header t :: Resize.body t).

End ColumnDrag.

(** * Properties *)

(** ** Strings *)

Lemma append_cons (x : ascii) (s t : string) : String x s +:+ t = String x (s +:+ t).
Proof. reflexivity. Qed.





(** ** Row objects *)


Lemma obj_get_update_ne k k' v o :
  k ≠ k' → obj_get k' (obj_update k v o) = obj_get k' o.
Proof.
  intros Hne. induction o as [|[k0 v0] o IH]; simpl; [done |].
  destruct (decide (k0 = k)) as [->|Hk]; simpl.
  - by rewrite !decide_False.
  - destruct (decide (k0 = k')); [done | apply IH].
Qed.


Lemma obj_get_insert_ne k k' v o :
  k ≠ k' → obj_get k' (obj_insert k v o) = obj_get k' o.
Proof.
  intros Hne. induction o as [|[k0 v0] o IH]; simpl.
  - by rewrite decide_False.
  - destruct (enumerated_before k k0); simpl.
    + by rewrite decide_False.
    + destruct (decide (k0 = k')); [done | apply IH].
Qed.



Lemma obj_get_set_ne k k' v o : k ≠ k' → obj_get k' (obj_set k v o) = obj_get k' o.
Proof.
  intros Hne. unfold obj_set. destruct (obj_get k o).
  - by apply obj_get_update_ne.
  - by apply obj_get_insert_ne.
Qed.








Lemma row_cells_values (r : Row) : NoDup (r.*1) → Papa.row_cells (r.*1) r = r.*2.
Proof.
  unfold Papa.row_cells.
  induction r as [|[k v] r IH]; csimpl; [done |].
  intros Hnd. apply NoDup_cons in Hnd as [Hk Hnd].
  rewrite decide_True by done. csimpl. f_equal.
  rewrite <- IH by done.
  apply list_fmap_ext. intros i c Hc.
  rewrite decide_False; [done |].
  intros ->. apply Hk. by apply list_elem_of_lookup_2 in Hc.
Qed.

(** ** The scanner reads back what the serializer writes *)

Module PapaFacts.
Import Papa.













Lemma scan_nonempty s : ∀ st fld rec out,
  Forall (λ r, r ≠ []) out → Forall (λ r, r ≠ []) (scan st fld rec out s).
Proof.
  assert (∀ (rec : list string) fld, rec ++ [fld] ≠ []) as Hsnoc.
  { intros [|??] ?; done. }
  induction s as [|x s IH]; intros st fld rec out Hout.
  - destruct st; simpl; try done;
      (apply Forall_app; split; [done | by apply Forall_singleton]).
  - destruct st; simpl; repeat case_decide; apply IH; try done;
      (apply Forall_app; split; [done | by apply Forall_singleton]).
Qed.

Lemma records_nonempty text : Forall (λ r, r ≠ []) (records text).
Proof. by apply scan_nonempty. Qed.




(** The header is a record with a cell, and not an empty line; so is
    every record behind a row. *)
Lemma kept_records_written text :
  Forall written (filter (λ r, ¬ empty_line r) (records text)).
Proof.
  apply Forall_forall. intros r Hr.
  apply list_elem_of_filter in Hr as [Hblank Hin].
  split; [| done].
  pose proof (records_nonempty text) as Hne.
  rewrite Forall_forall in Hne. by apply Hne.
Qed.


End PapaFacts.
(** ** The listeners of the data cells *)

(** C5. Committing a data cell whose edit buffer equals the value the
    table holds for it changes nothing: the result is the very same view,
    so the data, the number of [requestSave] calls and the list of
    rendered texts are unchanged, and so is the serialized output. *)
Theorem unchanged_commit_is_noop (rowIndex : nat) (field value : string)
    (p c : nat) (v : CSVView) (result : ParseResult) (row : Row) :
  csvData v = Some result →
  data result !! rowIndex = Some row →
  obj_get field row = Some value →
  dataCellBlur rowIndex field value p c v = Normal v
  ∧ ∀ unparse v', dataCellBlur rowIndex field value p c v = Normal v' →
      getViewData unparse v' = getViewData unparse v
      ∧ saveRequests v' = saveRequests v
      ∧ renderCalls v' = renderCalls v.
Proof.
  intros Hv Hrow Hval.
  assert (dataCellBlur rowIndex field value p c v = Normal v) as Hblur.
  { unfold dataCellBlur. rewrite Hv, Hrow.
    rewrite decide_False; [done |]. intros Hne. by apply Hne. }
  split; [done |].
  intros unparse v' Hv'. rewrite Hblur in Hv'.
  by injection Hv' as <-.
Qed.

Lemma unchanged_commit_is_noop_witness :
  dataCellBlur 0 "a" "1" 1 0 (load sample) = Normal (load sample).
Proof.
  eapply (unchanged_commit_is_noop 0 "a" "1" 1 0 (load sample)); reflexivity.
Defined.

(** C10. A blur of a data cell whose captured row index has no entry in
    the parsed data returns normally with the view untouched: no data
    changes, no [requestSave], nothing thrown. *)
Theorem absent_row_commit_is_noop (rowIndex : nat) (field newValue : string)
    (p c : nat) (v : CSVView) (result : ParseResult) :
  csvData v = Some result →
  data result !! rowIndex = None →
  dataCellBlur rowIndex field newValue p c v = Normal v.
Proof.
  intros Hv Hrow. unfold dataCellBlur. by rewrite Hv, Hrow.
Qed.

Lemma absent_row_commit_is_noop_witness :
  dataCellBlur 7 "a" "x" 1 0 (load sample) = Normal (load sample).
Proof.
  eapply (absent_row_commit_is_noop 7 "a" "x" 1 0 (load sample)); reflexivity.
Defined.




(** C9. In the table read from the sample text, committing "9" into
    field a of row 0 makes row 0 the object {a: 9, b: 2} and leaves
    row 1 as it was, and the serialized text reads back as these rows.
    In general a commit keeps the columns and the number of rows, every
    row but the one at the captured index, and, in that row, every field
    but the committed one. *)
Theorem cell_edit_changes_one_field :
  (∃ v', dataCellBlur 0 "a" "9" 1 0 (load sample) = Normal v'
     ∧ csvData v' = Some {| data := [[("a", "9"); ("b", "2")]; [("a", "3"); ("b", "4")]];
                            meta_fields := Some ["a"; "b"] |}
     ∧ Some (Papa.parse (save v')) = csvData v')
  ∧ ∀ rowIndex field newValue p c v v' result result',
      csvData v = Some result →
      dataCellBlur rowIndex field newValue p c v = Normal v' →
      csvData v' = Some result' →
      meta_fields result' = meta_fields result
      ∧ length (data result') = length (data result)
      ∧ (∀ j, j ≠ rowIndex → data result' !! j = data result !! j)
      ∧ (∀ row row' f, f ≠ field →
           data result !! rowIndex = Some row →
           data result' !! rowIndex = Some row' →
           obj_get f row' = obj_get f row).
Proof.
  split.
  { eexists. split; [reflexivity |]. split; reflexivity. }
  intros rowIndex field newValue p c v v' result result' Hv Hblur Hv'.
  unfold dataCellBlur in Hblur. rewrite Hv in Hblur.
  destruct (data result !! rowIndex) as [row0|] eqn:Hrow.
  2:{ injection Hblur as <-. rewrite Hv in Hv'. injection Hv' as <-.
      split_and!; try done; intros; congruence. }
  destruct (decide (obj_get field row0 ≠ Some newValue)) as [Hne|Heq].
  2:{ injection Hblur as <-. rewrite Hv in Hv'. injection Hv' as <-.
      split_and!; try done; intros; congruence. }
  injection Hblur as <-. simpl in Hv'. injection Hv' as <-. simpl.
  split_and!; [done | by rewrite length_insert | |].
  - intros j Hj. by rewrite list_lookup_insert_ne.
  - intros row row' f Hf [= <-] Hrow'.
    rewrite list_lookup_insert_eq in Hrow' by (by eapply lookup_lt_Some).
    injection Hrow' as <-. by apply obj_get_set_ne.
Qed.

Lemma cell_edit_changes_one_field_witness :
  ∃ v' result', dataCellBlur 0 "a" "9" 1 0 (load sample) = Normal v'
    ∧ csvData v' = Some result'
    ∧ data result' !! 1 = Some [("a", "3"); ("b", "4")].
Proof.
  destruct cell_edit_changes_one_field as [(v' & Hblur & Hdata & _) Hframe].
  exists v'. eexists. split; [exact Hblur |]. split; [exact Hdata |].
  destruct (Hframe 0 "a" "9" 1 0 (load sample) v' _ _ eq_refl Hblur Hdata)
    as (_ & _ & Hrows & _).
  etrans; [apply (Hrows 1); lia | reflexivity].
Defined.

(** ** The draft row *)

(** [isRowFilledOut] holds as soon as one cell has content, so the guard
    of the draft blur listener never stops a commit: the listener only
    reaches it when the cell that lost the focus has content. *)
Lemma isRowFilledOut_of_cell (row : TR) (c : nat) (x : Cell) :
  cells row !! c = Some x →
  has_content (textContent x) = true →
  isRowFilledOut row = true.
Proof.
  intros Hc Hx. unfold isRowFilledOut.
  apply existsb_exists. exists x. split; [| done].
  apply list_elem_of_In. by eapply list_elem_of_lookup_2.
Qed.

Lemma collect_total (fields : list string) : ∀ (cs : list Cell) (acc : Row),
  length fields ≤ length cs → ∃ newData, collect fields cs acc = Normal newData.
Proof.
  induction fields as [|f fields IH]; intros cs acc Hlen; simpl.
  - by eexists.
  - destruct cs as [|x cs]; simpl in *; [lia |]. apply IH. lia.
Qed.

(** Whatever the other cells hold, a draft row commits when the cell
    that loses the focus has content. *)
Lemma draftBlur_commits (p c : nat) (v : CSVView) (result : ParseResult)
    (row : TR) (x : Cell) :
  csvData v = Some result →
  tbody v !! p = Some row →
  cells row !! c = Some x →
  has_content (textContent x) = true →
  length (fields_or_empty result) ≤ length (cells row) →
  ∃ v' newData result',
    draftBlur p c v = Normal v'
    ∧ collect (fields_or_empty result) (cells row) [] = Normal newData
    ∧ csvData v' = Some result'
    ∧ data result' = newData :: data result
    ∧ saveRequests v' = S (saveRequests v).
Proof.
  intros Hv Hrow Hc Hx Hlen.
  destruct (collect_total _ _ [] Hlen) as [newData Hnew].
  unfold draftBlur. rewrite Hrow, Hc. simpl. rewrite Hx.
  rewrite (isRowFilledOut_of_cell _ _ _ Hc Hx). simpl.
  rewrite Hv, Hnew. by repeat eexists.
Qed.

(** C2, on the code. A draft row with one of its three fields filled is
    committed when that field loses the focus, and so is a draft row with
    two of its three fields filled: a row with empty fields enters the
    data at position 0 and [requestSave] is called. *)
Theorem partial_draft_row_is_committed :
  (∃ v, run [Focus 0 0; Input 0 0 "5"; Blur 0 0] (load three_columns) = Normal v
        ∧ (data <$> csvData v)
          = Some [[("a", "5"); ("b", ""); ("c", "")]; [("a", "1"); ("b", "2"); ("c", "3")]]
        ∧ saveRequests v = 1)
  ∧ (∃ v, run [Focus 0 0; Input 0 0 "5"; Input 0 1 "6"; Blur 0 0] (load three_columns)
          = Normal v
        ∧ (data <$> csvData v)
          = Some [[("a", "5"); ("b", "6"); ("c", "")]; [("a", "1"); ("b", "2"); ("c", "3")]]
        ∧ saveRequests v = 1).
Proof. split; eexists; (split; [reflexivity |]); split; reflexivity. Qed.

(** A draft row with every field filled commits as one new row at
    position 0, with the values of its cells. *)
Lemma full_draft_row_is_committed :
  ∃ v, run [Focus 0 0; Input 0 0 "5"; Input 0 1 "6"; Input 0 2 "7"; Blur 0 0]
           (load three_columns) = Normal v
       ∧ (data <$> csvData v)
         = Some [[("a", "5"); ("b", "6"); ("c", "7")]; [("a", "1"); ("b", "2"); ("c", "3")]].
Proof. eexists. split; reflexivity. Qed.

(** ** Column resize *)

Module ResizeFacts.
Import Resize.

Lemma widthAt_setWidth index w row :
  index < length row → widthAt index (setWidth index w row) = Some w.
Proof.
  intros Hlt. unfold widthAt, setWidth.
  by rewrite list_lookup_insert_eq.
Qed.

Lemma widthAt_setWidth_ne index j w row :
  index ≠ j → widthAt j (setWidth index w row) = widthAt j row.
Proof.
  intros Hne. unfold widthAt, setWidth.
  by rewrite list_lookup_insert_ne.
Qed.

End ResizeFacts.

(** C4, as stated, fails: a drag from a width of 100 pixels that asks
    for 0 pixels leaves the width at 100 instead of setting it to 50. *)
Lemma resize_below_floor_is_ignored :
  let t := Resize.mkTable [Some 100%Z; None] [[None; None]; [None; None]] in
  ∃ t', Resize.resize (Resize.mkDrag 200 100) 0 100 (Some t) = Some t'
    ∧ Resize.widthAt 0 (Resize.header t') = Some 100%Z
    ∧ Resize.widthAt 0 (Resize.header t') ≠ Some 50%Z.
Proof. eexists. split; [reflexivity |]. split; [reflexivity | discriminate]. Qed.

(** C4, amended. With [newWidth = startWidth + (pageX - startX)]: when
    [newWidth] is at least 50, it becomes the width of the header cell of
    the column and of the cell of that column in every body row that has
    one, the other columns and the shape of the table are kept; when
    [newWidth] is below 50 the move changes no width. *)
Theorem resize_applies_from_floor (d : Resize.Drag) (index : nat) (pageX : Z)
    (t : Resize.Table) :
  let newWidth := (Resize.startWidth d + (pageX - Resize.startX d))%Z in
  ∃ t', Resize.resize d index pageX (Some t) = Some t' ∧
    ((newWidth < 50)%Z → t' = t) ∧
    ((50 ≤ newWidth)%Z →
       (index < length (Resize.header t) →
          Resize.widthAt index (Resize.header t') = Some newWidth)
       ∧ length (Resize.body t') = length (Resize.body t)
       ∧ (∀ i row, Resize.body t !! i = Some row →
            ∃ row', Resize.body t' !! i = Some row'
              ∧ length row' = length row
              ∧ (index < length row → Resize.widthAt index row' = Some newWidth)
              ∧ (∀ j, j ≠ index → Resize.widthAt j row' = Resize.widthAt j row))
       ∧ (∀ j, j ≠ index →
            Resize.widthAt j (Resize.header t') = Resize.widthAt j (Resize.header t))).
Proof.
  intros newWidth. unfold Resize.resize. fold newWidth.
  destruct (Z.leb_spec 50 newWidth) as [Hge|Hlt].
  - eexists. split; [done |]. split; [lia |]. intros _. simpl.
    split_and!.
    + intros Hlt. apply ResizeFacts.widthAt_setWidth.
      unfold Resize.setWidth. by rewrite length_insert.
    + by rewrite length_fmap.
    + intros i row Hrow. exists (Resize.setWidth index newWidth row).
      rewrite list_lookup_fmap, Hrow. split_and!; [done | | |].
      * unfold Resize.setWidth. by rewrite length_insert.
      * apply ResizeFacts.widthAt_setWidth.
      * intros j Hj. by apply ResizeFacts.widthAt_setWidth_ne.
    + intros j Hj. by rewrite !ResizeFacts.widthAt_setWidth_ne.
  - eexists. split; [done |]. split; [done | lia].
Qed.

Lemma resize_applies_from_floor_witness :
  ∃ t', Resize.resize (Resize.mkDrag 200 100) 0 260
          (Some (Resize.mkTable [Some 100%Z; None] [[None; None]])) = Some t'
    ∧ Resize.widthAt 0 (Resize.header t') = Some 160%Z.
Proof.
  destruct (resize_applies_from_floor (Resize.mkDrag 200 100) 0 260
              (Resize.mkTable [Some 100%Z; None] [[None; None]]))
    as (t' & Hr & _ & Hge).
  exists t'. split; [exact Hr |].
  apply Hge; simpl; lia.
Defined.

(** ** How many draft rows there are *)

Section DraftRows.

Lemma alter_absent (f : TR → TR) (p : nat) : ∀ rows : list TR,
  rows !! p = None → alter f p rows = rows.
Proof.
  induction p as [|p IH]; intros [|x rows] Hr; simplify_eq/=; [done | done |].
  f_equal. by apply IH.
Qed.

Lemma count_alter (f : TR → TR) (p : nat) : ∀ (rows : list TR) (r : TR),
  rows !! p = Some r →
  draftCount (alter f p rows) + (if new_row r then 1 else 0)
  = draftCount rows + (if new_row (f r) then 1 else 0).
Proof.
  unfold draftCount.
  induction p as [|p IH]; intros [|x rows] r Hr; simplify_eq/=.
  - rewrite !filter_cons.
    destruct (new_row r), (new_row (f r)); repeat case_decide; simpl; try done; lia.
  - rewrite !filter_cons. specialize (IH rows r Hr).
    case_decide; simpl; lia.
Qed.

Lemma count_alter_same (f : TR → TR) (p : nat) (rows : list TR) :
  (∀ r, new_row (f r) = new_row r) → draftCount (alter f p rows) = draftCount rows.
Proof.
  intros Hf. destruct (rows !! p) as [r|] eqn:Hr.
  - pose proof (count_alter f p rows r Hr) as H. rewrite Hf in H. lia.
  - by rewrite alter_absent.
Qed.

Lemma count_none (rows : list TR) :
  Forall (λ r, new_row r = false) rows → draftCount rows = 0.
Proof.
  unfold draftCount. induction 1 as [|r rows Hr _ IH]; [done |].
  rewrite filter_cons_False; [done |]. by rewrite Hr.
Qed.

Lemma draftCount_cons r rows :
  draftCount (r :: rows) = (if new_row r then 1 else 0) + draftCount rows.
Proof.
  unfold draftCount. rewrite filter_cons.
  destruct (new_row r); case_decide; done.
Qed.

Lemma draftCount_app rows1 rows2 :
  draftCount (rows1 ++ rows2) = draftCount rows1 + draftCount rows2.
Proof. unfold draftCount. by rewrite filter_app, length_app. Qed.

Lemma draftCount_setCell p c f rows : draftCount (setCell p c f rows) = draftCount rows.
Proof. by apply count_alter_same. Qed.

Lemma wired_setCell p c f rows : wired rows → wired (setCell p c f rows).
Proof. intros Hw. apply Forall_alter; [done |]. by intros r _ Hr. Qed.

Lemma lookup_setCell p c f rows q r' :
  setCell p c f rows !! q = Some r' →
  ∃ r, rows !! q = Some r ∧ new_row r' = new_row r ∧ wiring r' = wiring r.
Proof.
  unfold setCell. intros Hq.
  destruct (decide (p = q)) as [->|Hne].
  - rewrite list_lookup_alter_eq in Hq.
    destruct (rows !! q) as [r|]; simplify_eq/=. by exists r.
  - rewrite list_lookup_alter_ne in Hq by done. by exists r'.
Qed.

Lemma dataRows_not_new fields (rows : list Row) :
  Forall (λ r, new_row r = false ∧ draftWiring (wiring r) = false)
    (imap (dataRow fields) rows).
Proof.
  apply Forall_lookup. intros i r Hr.
  apply list_lookup_imap_Some in Hr as (row & _ & ->). done.
Qed.

(** The two outcomes of the draft blur listener: nothing, or the
    commit of the row. *)
Lemma draftBlur_inv p c v v' :
  draftBlur p c v = Normal v' →
  v' = v
  ∨ ∃ r result newData,
      tbody v !! p = Some r
      ∧ csvData v = Some result
      ∧ collect (fields_or_empty result) (cells r) [] = Normal newData
      ∧ v' = {| csvData := Some {| data := newData :: data result;
                                   meta_fields := meta_fields result |};
                tbody := <[p := mkTR false RebuiltRow
                                  (markdownCells (fields_or_empty result) newData)]>
                           (tbody v);
                focused := focused v;
                saveRequests := S (saveRequests v);
                renderCalls := renderCalls v
                               ++ rowRenders (fields_or_empty result) newData |}.
Proof.
  unfold draftBlur. intros Hd.
  destruct (tbody v !! p) as [r|] eqn:Hr; [| left; by simplify_eq].
  repeat case_match; simplify_eq; try (by left).
  right. by repeat eexists.
Qed.

Lemma newRows_commit p v r cs :
  tbody v !! p = Some r → new_row r = true →
  draftCount (<[p := mkTR false RebuiltRow cs]> (tbody v)) + 1 = newRows v.
Proof.
  intros Hr Hnew. rewrite list_insert_alter.
  pose proof (count_alter (λ _, mkTR false RebuiltRow cs) p (tbody v) r Hr) as Hc.
  rewrite Hnew in Hc. simpl in Hc. unfold newRows. lia.
Qed.

Variable Papa_parse : string → ParseResult.

(** [meta.fields] is always there when the header option is set. *)
Hypothesis parse_fields : ∀ text, is_Some (meta_fields (Papa_parse text)).

Lemma tbody_setViewData text v :
  ∃ fields,
    meta_fields (Papa_parse text) = Some fields
    ∧ tbody (setViewData Papa_parse text v)
      = emptyRow DraftRow fields :: imap (dataRow fields) (data (Papa_parse text)).
Proof.
  destruct (parse_fields text) as [fields Hf]. exists fields.
  split; [done |]. unfold setViewData, renderTable, fields_or_empty. simpl.
  by rewrite Hf.
Qed.

Lemma newRows_setViewData text v : newRows (setViewData Papa_parse text v) = 1.
Proof using parse_fields.
  destruct (tbody_setViewData text v) as (fields & _ & Hb).
  unfold newRows. rewrite Hb, draftCount_cons. simpl.
  rewrite count_none; [done |].
  eapply Forall_impl; [apply dataRows_not_new |]. by intros r [? _].
Qed.

Lemma invariant_setViewData text v : draft_invariant (setViewData Papa_parse text v).
Proof using parse_fields.
  split_and!.
  - rewrite newRows_setViewData. lia.
  - rewrite newRows_setViewData. lia.
  - destruct (tbody_setViewData text v) as (fields & _ & ->).
    apply Forall_cons. split; [done |].
    eapply Forall_impl; [apply dataRows_not_new |]. intros r [-> ->]. done.
  - done.
Qed.

Lemma newRows_addNewEmptyRow fields v :
  newRows (addNewEmptyRow fields v) = S (newRows v).
Proof.
  unfold newRows, addNewEmptyRow. simpl.
  rewrite draftCount_app, draftCount_cons. simpl. unfold draftCount at 2. simpl. lia.
Qed.

Lemma invariant_draftFocus p c v :
  draft_invariant v → draft_invariant (draftFocus (withFocus (Some (p, c)) v)).
Proof.
  intros ([Hlo Hhi] & Hw & Hf). unfold draftFocus.
  change (newRows (withFocus (Some (p, c)) v)) with (newRows v).
  case_decide as Hone.
  - split_and!; rewrite ?newRows_addNewEmptyRow;
      change (newRows (withFocus (Some (p, c)) v)) with (newRows v); try lia.
    simpl. apply Forall_app. split; [done |]. by apply Forall_singleton.
  - split_and!; try done. intros. change (newRows v = 2). lia.
Qed.

Lemma invariant_withFocus_None v : draft_invariant v → draft_invariant (withFocus None v).
Proof. intros (Hn & Hw & _). split; [exact Hn |]. split; [exact Hw | done]. Qed.

Lemma invariant_withFocus_data p c v r :
  draft_invariant v → tbody v !! p = Some r → new_row r = false →
  draft_invariant (withFocus (Some (p, c)) v).
Proof.
  intros (Hn & Hw & _) Hr Hnew.
  split; [exact Hn |]. split; [exact Hw |].
  simpl. intros p' c' r' [= <- <-] Hr' Hnew'. congruence.
Qed.

Lemma cellAt_row p c v r x : cellAt p c v = Some (r, x) → tbody v !! p = Some r.
Proof.
  unfold cellAt. destruct (tbody v !! p) as [r0|]; [| done].
  destruct (cells r0 !! c); by intros [= <- <-].
Qed.

(** A view whose body is [body'] keeps the invariant when the rows of
    [body'] carry the classes and wirings of the rows of [v] and the
    focus is in no draft row. *)
Lemma invariant_setCell p c f v v' :
  draft_invariant v →
  tbody v' = setCell p c f (tbody v) →
  (∀ q c' r, focused v' = Some (q, c') → tbody v !! q = Some r → new_row r = true →
     newRows v = 2) →
  draft_invariant v'.
Proof.
  intros ([Hlo Hhi] & Hw & Hf) Hb Hfoc.
  assert (newRows v' = newRows v) as Hcount.
  { unfold newRows. by rewrite Hb, draftCount_setCell. }
  split_and!; rewrite ?Hcount; try done.
  - rewrite Hb. by apply wired_setCell.
  - intros q c' r' Hq Hr' Hnew. rewrite Hb in Hr'.
    apply lookup_setCell in Hr' as (r0 & Hr0 & Hn & _).
    eapply Hfoc; [done | done |]. by rewrite <- Hn.
Qed.

Lemma invariant_step v v' : draft_invariant v → step Papa_parse v v' → draft_invariant v'.
Proof using parse_fields.
  intros Hinv Hstep. destruct Hstep as
    [text v | p c v v' Hnone Hcell Hd | p c v v' Hfoc Hd
     | p c text v v' Hfoc Hd | p c v v' Hnone Hd].
  - apply invariant_setViewData.
  - (* focus *)
    simpl in Hd. destruct Hcell as [[r x] Hcell]. rewrite Hcell in Hd.
    pose proof (cellAt_row _ _ _ _ _ Hcell) as Hr.
    assert (new_row r = draftWiring (wiring r)) as Hnr.
    { destruct Hinv as (_ & Hw & _). by eapply Forall_lookup_1 in Hw. }
    destruct (wiring r) eqn:Hwr; simplify_eq;
      try (by apply invariant_draftFocus);
      by eapply invariant_withFocus_data.
  - (* blur *)
    simpl in Hd. destruct (cellAt p c v) as [[r x]|] eqn:Hcell; [| by simplify_eq].
    pose proof (cellAt_row _ _ _ _ _ Hcell) as Hr.
    destruct (wiring r) eqn:Hwr; simplify_eq;
      try (by apply invariant_withFocus_None).
    + (* the draft row of renderTable *)
      apply draftBlur_inv in Hd as [->|(r0 & result & newData & Hr0 & _ & _ & ->)];
        [by apply invariant_withFocus_None |].
      simpl in Hr0. rewrite Hr in Hr0. simplify_eq.
      destruct Hinv as ([Hlo Hhi] & Hw & Hf).
      assert (new_row r0 = true) as Hnew.
      { eapply Forall_lookup_1 in Hw; [| done]. by rewrite Hw, Hwr. }
      pose proof (Hf p c r0 Hfoc Hr Hnew) as Htwo.
      pose proof (newRows_commit p v r0
                    (markdownCells (fields_or_empty result) newData) Hr Hnew) as Hc.
      split_and!; unfold newRows; simpl; try lia.
      * by apply Forall_insert.
      * done.
    + (* a data row *)
      unfold dataCellBlur in Hd. simpl in Hd.
      repeat case_match; simplify_eq; try (by apply invariant_withFocus_None).
      eapply invariant_setCell; [done | done | done].
  - (* input *)
    simpl in Hd. simplify_eq.
    eapply invariant_setCell; [done | done |].
    destruct Hinv as (_ & _ & Hf). simpl. apply Hf.
  - (* double click *)
    simpl in Hd. destruct (cellAt p c v) as [[r x]|] eqn:Hcell; [| by simplify_eq].
    pose proof (cellAt_row _ _ _ _ _ Hcell) as Hr.
    assert (new_row r = draftWiring (wiring r)) as Hnr.
    { destruct Hinv as (_ & Hw & _). by eapply Forall_lookup_1 in Hw. }
    destruct (wiring r) eqn:Hwr, (mode x); simplify_eq; try done.
    all: eapply invariant_setCell; [done | done |];
      simpl; intros q c' r' [= <- <-] Hr' Hnew;
      rewrite Hr in Hr'; simplify_eq; by rewrite Hnr in Hnew.
Qed.

Lemma invariant_active v : active Papa_parse v → draft_invariant v.
Proof using parse_fields.
  induction 1 as [text v | v v' _ IH Hstep].
  - apply invariant_setViewData.
  - by eapply invariant_step.
Qed.

End DraftRows.

Lemma Papa_parse_fields (text : string) : is_Some (meta_fields (Papa.parse text)).
Proof. unfold Papa.parse. case_match; by eexists. Qed.

(** C3, as stated, fails: when a cell of the draft row gains the focus a
    second draft row is added, so two draft rows exist, and the new one
    is the last row of the body. *)
Lemma focus_adds_second_draft_row :
  ∃ v, dispatch (Focus 0 0) (load sample) = Normal v
    ∧ newRows v = 2
    ∧ new_row <$> tbody v = [true; false; false; true].
Proof. eexists. split; [reflexivity |]. split; reflexivity. Qed.

(** After the commit of the rendered draft row the draft row that is
    left is the one the focus added. *)
Lemma draft_row_left_after_commit :
  ∃ v, run [Focus 0 0; Input 0 0 "5"; Input 0 1 "6"; Blur 0 0] (load sample) = Normal v
    ∧ newRows v = 1
    ∧ wiring <$> tbody v = [RebuiltRow; DataRow 0; DataRow 1; SpawnedDraftRow].
Proof. eexists. split; [reflexivity |]. split; reflexivity. Qed.

(** C3, amended. Right after a load there is exactly one draft row: it
    is the first row of the body, all its cells are empty and no row
    below it is a draft row. While the grid is active there are always
    one or two draft rows. When a cell of a draft row gains the focus
    while that row is the only draft row, one empty draft row is added,
    so that there are two; and when the rendered draft row commits,
    exactly one draft row is left. *)
Theorem draft_rows_one_or_two :
  (∀ text v, ∃ fields rest,
      tbody (setViewData Papa.parse text v) = emptyRow DraftRow fields :: rest
      ∧ Forall (λ x, textContent x = "") (cells (emptyRow DraftRow fields))
      ∧ Forall (λ r, new_row r = false) rest
      ∧ newRows (setViewData Papa.parse text v) = 1)
  ∧ (∀ v, active Papa.parse v → 1 ≤ newRows v ≤ 2)
  ∧ (∀ v p c r x,
       active Papa.parse v → cellAt p c v = Some (r, x) → new_row r = true →
       newRows v = 1 →
       ∃ v' fields, dispatch (Focus p c) v = Normal v'
         ∧ tbody v' = tbody v ++ [emptyRow SpawnedDraftRow fields]
         ∧ newRows v' = 2)
  ∧ (∀ v p c r v',
       active Papa.parse v → focused v = Some (p, c) →
       tbody v !! p = Some r → wiring r = DraftRow →
       dispatch (Blur p c) v = Normal v' →
       saveRequests v' = S (saveRequests v) →
       newRows v' = 1).
Proof.
  split_and!.
  - intros text v.
    destruct (tbody_setViewData Papa.parse Papa_parse_fields text v) as (fields & _ & Hb).
    exists fields, (imap (dataRow fields) (data (Papa.parse text))).
    split_and!; [done | | |].
    + simpl. apply Forall_fmap, Forall_forall. done.
    + eapply Forall_impl; [apply dataRows_not_new |]. by intros r [? _].
    + by apply newRows_setViewData, Papa_parse_fields.
  - intros v Hv. by apply (invariant_active Papa.parse Papa_parse_fields).
  - intros v p c r x Hv Hcell Hnew Hone.
    apply (invariant_active Papa.parse Papa_parse_fields) in Hv as (_ & Hw & _).
    pose proof (cellAt_row _ _ _ _ _ Hcell) as Hr.
    eapply Forall_lookup_1 in Hw; [| done]. rewrite Hnew in Hw.
    assert (draftFocus (withFocus (Some (p, c)) v)
            = addNewEmptyRow (capturedFields v) (withFocus (Some (p, c)) v)) as Hfocus.
    { unfold draftFocus.
      change (newRows (withFocus (Some (p, c)) v)) with (newRows v).
      by rewrite decide_True. }
    exists (draftFocus (withFocus (Some (p, c)) v)), (capturedFields v).
    split_and!.
    + simpl. rewrite Hcell. by destruct (wiring r).
    + by rewrite Hfocus.
    + rewrite Hfocus, newRows_addNewEmptyRow.
      change (newRows (withFocus (Some (p, c)) v)) with (newRows v). lia.
  - intros v p c r v' Hv Hfoc Hr Hwr Hd Hsave.
    apply (invariant_active Papa.parse Papa_parse_fields) in Hv as (_ & Hw & Hf).
    eapply Forall_lookup_1 in Hw; [| done]. rewrite Hwr in Hw. simpl in Hw.
    pose proof (Hf p c r Hfoc Hr Hw) as Htwo.
    simpl in Hd. unfold cellAt in Hd. rewrite Hr in Hd.
    destruct (cells r !! c) as [x|]; simpl in Hd; [| simplify_eq; lia].
    rewrite Hwr in Hd.
    apply draftBlur_inv in Hd as [->|(r0 & result & newData & Hr0 & _ & _ & ->)].
    + simpl in Hsave. lia.
    + simpl in Hr0. rewrite Hr in Hr0. simplify_eq.
      pose proof (newRows_commit p v r0
                    (markdownCells (fields_or_empty result) newData) Hr Hw) as Hc.
      unfold newRows. simpl. lia.
Qed.

Lemma draft_rows_one_or_two_witness :
  let v := draftFocus (withFocus (Some (0, 0)) (load sample)) in
  active Papa.parse v ∧ 1 ≤ newRows v ≤ 2.
Proof.
  assert (active Papa.parse (draftFocus (withFocus (Some (0, 0)) (load sample)))) as Hv.
  { eapply active_step; [apply (active_load Papa.parse sample fresh) |].
    eapply (step_focus Papa.parse 0 0); [reflexivity | by eexists | reflexivity]. }
  split; [exact Hv |].
  exact (proj1 (proj2 draft_rows_one_or_two) _ Hv).
Defined.

(** ** Listeners on an active grid do not throw *)

Section Loaded.

Variable Papa_parse : string → ParseResult.

Lemma loaded_setViewData text v : loaded (setViewData Papa_parse text v).
Proof.
  exists (Papa_parse text). split; [done |].
  unfold setViewData, renderTable, fields_or_empty. simpl.
  apply Forall_app. split.
  - destruct (meta_fields (Papa_parse text)) as [fields|]; [| done].
    apply Forall_singleton. intros _. simpl. by rewrite length_fmap.
  - apply Forall_lookup. intros i r Hr.
    apply list_lookup_imap_Some in Hr as (row & _ & ->). done.
Qed.

Lemma loaded_setCell p c f v v' result result' :
  csvData v = Some result → csvData v' = Some result' →
  meta_fields result' = meta_fields result →
  tbody v' = setCell p c f (tbody v) →
  loaded v → loaded v'.
Proof.
  intros Hv Hv' Hmeta Hb (result0 & Hr0 & Hrows).
  rewrite Hv in Hr0. simplify_eq.
  exists result'. split; [done |]. rewrite Hb.
  unfold fields_or_empty in *. rewrite Hmeta.
  apply Forall_alter; [done |].
  intros r _ Hr. simpl. rewrite length_alter. done.
Qed.

Lemma loaded_step v v' : loaded v → step Papa_parse v v' → loaded v'.
Proof.
  intros Hl Hstep. destruct Hstep as
    [text v | p c v v' Hnone Hcell Hd | p c v v' Hfoc Hd
     | p c text v v' Hfoc Hd | p c v v' Hnone Hd].
  - apply loaded_setViewData.
  - simpl in Hd. destruct Hcell as [[r x] Hcell]. rewrite Hcell in Hd.
    destruct Hl as (result & Hv & Hrows).
    destruct (wiring r); simplify_eq; try (by exists result).
    all: unfold draftFocus; case_decide; try (by exists result).
    all: exists result; split; [done |]; simpl;
      apply Forall_app; split; [done |]; by apply Forall_singleton.
  - simpl in Hd. destruct (cellAt p c v) as [[r x]|] eqn:Hcell; [| by simplify_eq].
    destruct (wiring r) eqn:Hwr; simplify_eq; try done.
    + apply draftBlur_inv in Hd as [->|(r0 & result & newData & _ & Hv & _ & ->)];
        [done |].
      destruct Hl as (result0 & Hv0 & Hrows). simpl in Hv.
      rewrite Hv in Hv0. simplify_eq.
      eexists. split; [done |]. simpl. by apply Forall_insert.
    + destruct Hl as (result & Hv & Hrows).
      unfold dataCellBlur in Hd. simpl in Hd. rewrite Hv in Hd.
      repeat case_match; simplify_eq; try (by exists result).
      eapply (loaded_setCell p c _ v); [done | done | done | done |].
      by exists result.
  - simpl in Hd. simplify_eq.
    destruct Hl as (result & Hv & Hrows).
    eapply (loaded_setCell p c _ v); [done | done | done | done |].
    by exists result.
  - simpl in Hd. destruct (cellAt p c v) as [[r x]|] eqn:Hcell; [| by simplify_eq].
    destruct Hl as (result & Hv & Hrows).
    destruct (wiring r), (mode x); simplify_eq; try (by exists result).
    all: eapply (loaded_setCell p c _ v); [done | done | done | done |];
      by exists result.
Qed.

Lemma loaded_active v : active Papa_parse v → loaded v.
Proof.
  induction 1 as [text v | v v' _ IH Hstep].
  - apply loaded_setViewData.
  - by eapply loaded_step.
Qed.

(** X16. On an active grid (a text was loaded, then any events the
    browser allows) no listener throws: every focus, blur, input and
    double click returns normally. *)
Lemma active_never_throws v ev :
  active Papa_parse v → ∃ v', dispatch ev v = Normal v'.
Proof.
  intros Hv. apply loaded_active in Hv as (result & Hv & Hrows).
  destruct ev as [p c | p c | p c text | p c]; simpl.
  - destruct (cellAt p c v) as [[r x]|]; [| by eexists].
    destruct (wiring r); by eexists.
  - destruct (cellAt p c v) as [[r x]|] eqn:Hcell; [| by eexists].
    pose proof (cellAt_row _ _ _ _ _ Hcell) as Hr.
    destruct (wiring r) eqn:Hwr; try (by eexists).
    + unfold draftBlur. simpl. rewrite Hr, Hv.
      eapply Forall_lookup_1 in Hrows; [| done].
      destruct (collect_total _ _ [] (Hrows Hwr)) as [newData ->].
      repeat case_match; by eexists.
    + unfold dataCellBlur. simpl. rewrite Hv.
      repeat case_match; by eexists.
  - by eexists.
  - destruct (cellAt p c v) as [[r x]|]; [| by eexists].
    destruct (wiring r), (mode x); by eexists.
Qed.

End Loaded.

(** The row index a data cell captured is the index at render time: once
    a draft row was committed in front of the data, the commit of the
    cell that shows row 0 of the loaded table writes into the new
    row. *)
Lemma row_index_is_captured_at_render :
  ∃ v, run [Focus 0 0; Input 0 0 "5"; Input 0 1 "6"; Blur 0 0;
            DblClick 1 0; Input 1 0 "9"; Blur 1 0] (load sample) = Normal v
    ∧ (data <$> csvData v)
      = Some [[("a", "9"); ("b", "6")]; [("a", "1"); ("b", "2")]; [("a", "3"); ("b", "4")]].
Proof. eexists. split; reflexivity. Qed.

(** ** The codec under the view *)



(** The serializer is handed the rows only: two views with the same rows
    serialize alike, whatever their columns and whatever the serializer. *)
Lemma getViewData_rows_only unparse v1 v2 r1 r2 :
  csvData v1 = Some r1 → csvData v2 = Some r2 → data r1 = data r2 →
  getViewData unparse v1 = getViewData unparse v2.
Proof. unfold getViewData. by intros -> -> ->. Qed.









(** C7, on the code. A table with columns and no row is saved as the
    empty text, not as its header line: the serializer gets the empty
    array of rows, so the saved text is the same for every header,
    whatever the serializer does. Before any load the saved text is
    empty, and so it is after the load of an empty text. *)
Theorem header_only_table_loses_header :
  csvData (load "a,b") = Some {| data := []; meta_fields := Some ["a"; "b"] |}
  ∧ save (load "a,b") = ""
  ∧ Papa.serialize ["a"; "b"] [] = "a,b"
  ∧ meta_fields (Papa.parse (save (load "a,b"))) = Some []
  ∧ (∀ unparse, getViewData unparse (load "a,b") = getViewData unparse (load "x,y,z"))
  ∧ (∀ unparse, getViewData unparse fresh = "")
  ∧ save (load "") = "".
Proof. split_and!; reflexivity. Qed.

(** * More of the view *)

(** ** What an event can do *)

Lemma withFocus_same (v : CSVView) : v = withFocus (focused v) v.
Proof. by destruct v. Qed.

(** The five outcomes of an event: the focus moves, a draft row is
    added, a cell changes, a data cell commits, the draft row commits. *)
Lemma dispatch_cases (ev : Event) (v v' : CSVView) :
  dispatch ev v = Normal v' →
  (∃ f, v' = withFocus f v)
  ∨ (∃ p c, newRows v = 1
       ∧ v' = addNewEmptyRow (capturedFields v) (withFocus (Some (p, c)) v))
  ∨ (∃ p c g f, (∀ x, cell_field (g x) = cell_field x)
       ∧ v' = mkView (csvData v) (setCell p c g (tbody v)) f
                (saveRequests v) (renderCalls v))
  ∨ (∃ p c x r rowIndex result row,
       cellAt p c v = Some (r, x) ∧ wiring r = DataRow rowIndex
       ∧ csvData v = Some result ∧ data result !! rowIndex = Some row
       ∧ obj_get (cell_field x) row ≠ Some (textContent x)
       ∧ v' = {| csvData :=
                   Some {| data := <[rowIndex := obj_set (cell_field x) (textContent x) row]>
                                     (data result);
                           meta_fields := meta_fields result |};
                 tbody := setCell p c (showCell Display) (tbody v);
                 focused := None;
                 saveRequests := S (saveRequests v);
                 renderCalls := renderCalls v ++ [textContent x] |})
  ∨ (∃ p c x r result newData,
       cellAt p c v = Some (r, x) ∧ wiring r = DraftRow
       ∧ has_content (textContent x) = true
       ∧ csvData v = Some result
       ∧ collect (fields_or_empty result) (cells r) [] = Normal newData
       ∧ v' = {| csvData := Some {| data := newData :: data result;
                                    meta_fields := meta_fields result |};
                 tbody := <[p := mkTR false RebuiltRow
                                   (markdownCells (fields_or_empty result) newData)]>
                            (tbody v);
                 focused := None;
                 saveRequests := S (saveRequests v);
                 renderCalls := renderCalls v
                                ++ rowRenders (fields_or_empty result) newData |}).
Proof.
  intros Hd. destruct ev as [p c | p c | p c text | p c]; simpl in Hd.
  - (* focus *)
    destruct (cellAt p c v) as [[r x]|] eqn:Hcell;
      [| left; exists (focused v); simplify_eq; apply withFocus_same].
    assert (draftFocus (withFocus (Some (p, c)) v) = v' ∨ withFocus (Some (p, c)) v = v')
      as [Hf|Hf] by (destruct (wiring r); simplify_eq; auto).
    + unfold draftFocus in Hf.
      change (newRows (withFocus (Some (p, c)) v)) with (newRows v) in Hf.
      case_decide; subst v'.
      * right. left. by exists p, c.
      * left. by eexists.
    + left. by eexists.
  - (* blur *)
    destruct (cellAt p c v) as [[r x]|] eqn:Hcell;
      [| left; exists (focused v); simplify_eq; apply withFocus_same].
    pose proof (cellAt_row _ _ _ _ _ Hcell) as Hr.
    assert (cells r !! c = Some x) as Hx.
    { unfold cellAt in Hcell. rewrite Hr in Hcell.
      destruct (cells r !! c); by simplify_eq/=. }
    destruct (wiring r) eqn:Hwr; simplify_eq; try (left; by eexists).
    + unfold draftBlur in Hd. simpl in Hd. rewrite Hr, Hx in Hd. simpl in Hd.
      destruct (has_content (textContent x)) eqn:Hc;
        [| simplify_eq; left; by eexists].
      destruct (isRowFilledOut r); simpl in Hd; [| simplify_eq; left; by eexists].
      destruct (csvData v) as [result|] eqn:Hv; [| done].
      destruct (collect (fields_or_empty result) (cells r) []) as [newData|] eqn:Hn;
        [| done].
      simplify_eq. do 4 right.
      exists p, c, x, r, result, newData. split_and!; try done.
    + unfold dataCellBlur in Hd. simpl in Hd.
      destruct (csvData v) as [result|] eqn:Hv; [| done].
      destruct (data result !! rowIndex) as [row|] eqn:Hrow;
        [| simplify_eq; left; by eexists].
      case_decide; simplify_eq; [| left; by eexists].
      do 3 right. left.
      exists p, c, x, r, rowIndex, result, row. split_and!; try done.
  - (* input *)
    simplify_eq. do 2 right. left.
    exists p, c, (λ x, mkCell (cell_field x) text (mode x)), (focused v). done.
  - (* double click *)
    destruct (cellAt p c v) as [[r x]|] eqn:Hcell;
      [| left; exists (focused v); simplify_eq; apply withFocus_same].
    assert (cellDblClick p c v = v' ∨ v = v') as [Hf|Hf]
      by (destruct (wiring r), (mode x); simplify_eq; auto).
    + subst v'. do 2 right. left.
      exists p, c, (showCell Editing), (Some (p, c)). done.
    + subst v'. left. exists (focused v). apply withFocus_same.
Qed.

Lemma run_preserves (I : CSVView → Prop) :
  (∀ ev v v', I v → dispatch ev v = Normal v' → I v') →
  ∀ evs v v', I v → run evs v = Normal v' → I v'.
Proof.
  intros Hstep. induction evs as [|ev evs IH]; intros v v' Hv Hrun; simpl in Hrun.
  - by simplify_eq.
  - destruct (dispatch ev v) as [v1|] eqn:Hd; [| done].
    eapply IH; [| done]. by eapply Hstep.
Qed.

(** ** The columns, the dirty signal and the number of rows *)

(** X1. No sequence of events changes the columns: after any events on
    a view with a parse result, the view still has a parse result and
    its [meta.fields] are the ones it had. *)
Theorem columns_never_change (evs : list Event) (v v' : CSVView) (result : ParseResult) :
  csvData v = Some result →
  run evs v = Normal v' →
  ∃ result', csvData v' = Some result' ∧ meta_fields result' = meta_fields result.
Proof.
  intros Hv Hrun.
  apply (run_preserves
           (λ w, ∃ r, csvData w = Some r ∧ meta_fields r = meta_fields result))
    with (evs := evs) (v := v); [| by exists result | done].
  clear. intros ev v v' (r & Hv & Hm) Hd.
  apply dispatch_cases in Hd
    as [[f ->]|[(p & c & _ & ->)|[(p & c & g & f & _ & ->)
       |[(p & c & x & r0 & i & res & row & _ & _ & Hres & _ & _ & ->)
        |(p & c & x & r0 & res & nd & _ & _ & _ & Hres & _ & ->)]]]];
    try (by exists r); simplify_eq; by eexists.
Qed.

Lemma columns_never_change_witness :
  ∃ v' result',
    run [Focus 0 0; Input 0 0 "5"; Blur 0 0; DblClick 1 0; Input 1 0 "9"; Blur 1 0]
      (load sample) = Normal v'
    ∧ csvData v' = Some result'
    ∧ meta_fields result' = Some ["a"; "b"].
Proof.
  destruct (run [Focus 0 0; Input 0 0 "5"; Blur 0 0; DblClick 1 0; Input 1 0 "9"; Blur 1 0]
              (load sample)) as [v'|] eqn:Hrun; [| by vm_compute in Hrun].
  destruct (columns_never_change _ (load sample) v' _ eq_refl Hrun) as (result' & Hv' & Hm).
  exists v', result'. split; [reflexivity |]. split; [exact Hv' | exact Hm].
Defined.







Lemma filter_alter_length {A} (P : A → Prop) `{∀ x, Decision (P x)}
    (f : A → A) (p : nat) : ∀ (l : list A) (x : A),
  l !! p = Some x →
  length (filter P (alter f p l)) + (if decide (P x) then 1 else 0)
  = length (filter P l) + (if decide (P (f x)) then 1 else 0).
Proof.
  induction p as [|p IH]; intros [|y l] x Hx; simplify_eq/=.
  - rewrite !filter_cons.
    destruct (decide (P x)), (decide (P (f x))); simpl; lia.
  - rewrite !filter_cons. specialize (IH l x Hx).
    destruct (decide (P y)); simpl; lia.
Qed.

Lemma liveDrafts_alter (f : TR → TR) (p : nat) (rows : list TR) :
  (∀ r, wiring (f r) = wiring r) → liveDrafts (alter f p rows) = liveDrafts rows.
Proof.
  intros Hf. unfold liveDrafts. destruct (rows !! p) as [r|] eqn:Hr.
  - pose proof (filter_alter_length (λ r, wiring r = DraftRow) f p rows r Hr) as H.
    cbv beta in H. rewrite Hf in H.
    destruct (decide (wiring r = DraftRow)); lia.
  - by rewrite alter_absent.
Qed.

Lemma liveDrafts_commit (p : nat) (rows : list TR) (r : TR) (cs : list Cell) :
  rows !! p = Some r → wiring r = DraftRow →
  S (liveDrafts (<[p := mkTR false RebuiltRow cs]> rows)) = liveDrafts rows.
Proof.
  intros Hr Hw. unfold liveDrafts. rewrite list_insert_alter.
  pose proof (filter_alter_length (λ r, wiring r = DraftRow)
                (λ _, mkTR false RebuiltRow cs) p rows r Hr) as H.
  cbv beta in H. destruct (decide (wiring r = DraftRow)); [| done].
  simpl in H. lia.
Qed.

Lemma liveDrafts_app (rows1 rows2 : list TR) :
  liveDrafts (rows1 ++ rows2) = liveDrafts rows1 + liveDrafts rows2.
Proof. unfold liveDrafts. by rewrite filter_app, length_app. Qed.

Lemma liveDrafts_dataRows (fields : list string) (rows : list Row) :
  liveDrafts (imap (dataRow fields) rows) = 0.
Proof.
  unfold liveDrafts.
  assert (Forall (λ r, ¬ wiring r = DraftRow) (imap (dataRow fields) rows)) as Hall.
  { apply Forall_lookup. intros i r Hr.
    apply list_lookup_imap_Some in Hr as (row & _ & ->). done. }
  induction Hall as [|r l Hr _ IH]; [done |].
  by rewrite filter_cons_False.
Qed.

(** The rows of the table plus the draft rows that can still commit do
    not change in number. *)
Lemma dispatch_rows_plus_drafts (ev : Event) (v v' : CSVView) (result : ParseResult) :
  csvData v = Some result → dispatch ev v = Normal v' →
  ∃ result', csvData v' = Some result'
    ∧ length (data result') + liveDrafts (tbody v')
      = length (data result) + liveDrafts (tbody v)
    ∧ length (data result) ≤ length (data result').
Proof.
  intros Hv Hd.
  apply dispatch_cases in Hd
    as [[f ->]|[(p & c & _ & ->)|[(p & c & g & f & _ & ->)
       |[(p & c & x & r0 & i & res & row & _ & _ & Hres & Hrow & Hne & ->)
        |(p & c & x & r0 & res & nd & Hcell & Hw & _ & Hres & _ & ->)]]]];
    simplify_eq/=.
  - by exists result.
  - exists result. split; [done |]. split; [| done].
    rewrite liveDrafts_app. unfold liveDrafts at 2. simpl. lia.
  - exists result. split; [done |]. split; [| done].
    unfold setCell. by rewrite liveDrafts_alter.
  - eexists. split; [done |]. simpl. rewrite length_insert.
    split; [| done]. unfold setCell. by rewrite liveDrafts_alter.
  - eexists. split; [done |]. simpl.
    pose proof (cellAt_row _ _ _ _ _ Hcell) as Hr.
    pose proof (liveDrafts_commit p (tbody v) r0
                  (markdownCells (fields_or_empty result) nd) Hr Hw) as Hc.
    lia.
Qed.

(** X3. A load allows one new row at most: after any events on a
    loaded view the table has the rows it was loaded with, or one more.
    Only the draft row that [renderTable] built commits, and it does so
    once; the rows of [addNewEmptyRow] have no blur listener. *)
Theorem one_row_added_per_load_at_most (Papa_parse : string → ParseResult)
    (text : string) (v0 : CSVView) (evs : list Event) (v' : CSVView) :
  run evs (setViewData Papa_parse text v0) = Normal v' →
  ∃ result', csvData v' = Some result'
    ∧ length (data (Papa_parse text)) ≤ length (data result')
        ≤ S (length (data (Papa_parse text))).
Proof.
  intros Hrun.
  set (n := length (data (Papa_parse text))).
  assert (∃ result', csvData v' = Some result'
            ∧ n ≤ length (data result')
            ∧ length (data result') + liveDrafts (tbody v') ≤ S n) as (r & Hr & Hlo & Hhi).
  { apply (run_preserves
             (λ w, ∃ r, csvData w = Some r ∧ n ≤ length (data r)
                        ∧ length (data r) + liveDrafts (tbody w) ≤ S n))
      with (evs := evs) (v := setViewData Papa_parse text v0); [| | done].
    - clear. intros ev v v' (r & Hv & Hlo & Hhi) Hd.
      destruct (dispatch_rows_plus_drafts ev v v' r Hv Hd) as (r' & Hv' & Heq & Hle).
      exists r'. split; [done |]. lia.
    - exists (Papa_parse text). split; [done |]. split; [done |].
      unfold setViewData, renderTable. simpl.
      rewrite liveDrafts_app, liveDrafts_dataRows.
      destruct (meta_fields (Papa_parse text)); unfold liveDrafts; simpl; lia. }
  exists r. split; [done |]. lia.
Qed.

Lemma one_row_added_per_load_at_most_witness :
  ∃ v' result',
    run [Focus 0 0; Input 0 0 "5"; Blur 0 0; Focus 3 0; Input 3 0 "6"; Blur 3 0;
         DblClick 0 0; Input 0 0 "7"; Blur 0 0]
      (setViewData Papa.parse sample fresh) = Normal v'
    ∧ csvData v' = Some result'
    ∧ length (data result') ≤ 3.
Proof.
  destruct (run [Focus 0 0; Input 0 0 "5"; Blur 0 0; Focus 3 0; Input 3 0 "6"; Blur 3 0;
                 DblClick 0 0; Input 0 0 "7"; Blur 0 0]
              (setViewData Papa.parse sample fresh)) as [v'|] eqn:Hrun;
    [| by vm_compute in Hrun].
  destruct (one_row_added_per_load_at_most _ _ _ _ _ Hrun) as (result' & Hv' & _ & Hhi).
  exists v', result'. split; [reflexivity |]. split; [exact Hv' | exact Hhi].
Defined.

(** X4. What is typed into a row that [addNewEmptyRow] added, or into
    the cells of a committed draft row that [rebuildRowWithMarkdown]
    rebuilt, never reaches the table: no focus, blur, input or double
    click on such a row changes the parse result or calls
    [requestSave]. *)
Theorem added_and_rebuilt_rows_are_inert (p c : nat) (text : string)
    (v v' : CSVView) (r : TR) (ev : Event) :
  tbody v !! p = Some r →
  wiring r = SpawnedDraftRow ∨ wiring r = RebuiltRow →
  ev = Focus p c ∨ ev = Blur p c ∨ ev = Input p c text ∨ ev = DblClick p c →
  dispatch ev v = Normal v' →
  csvData v' = csvData v ∧ saveRequests v' = saveRequests v.
Proof.
  intros Hr Hw Hev Hd.
  destruct Hev as [Hev|[Hev|[Hev|Hev]]]; subst ev; simpl in Hd;
    unfold cellAt in Hd; rewrite ?Hr in Hd.
  - destruct (cells r !! c); simpl in Hd; [| by simplify_eq].
    destruct Hw as [Hw|Hw]; rewrite Hw in Hd; simplify_eq; [| done].
    unfold draftFocus. by case_decide.
  - destruct (cells r !! c); simpl in Hd; [| by simplify_eq].
    destruct Hw as [Hw|Hw]; rewrite Hw in Hd; by simplify_eq.
  - by simplify_eq.
  - destruct (cells r !! c) as [x|]; simpl in Hd; [| by simplify_eq].
    destruct Hw as [Hw|Hw]; rewrite Hw in Hd; destruct (mode x); by simplify_eq.
Qed.

Lemma added_and_rebuilt_rows_are_inert_witness :
  ∃ v v',
    run [Focus 0 0; Input 0 0 "5"; Blur 0 0; DblClick 0 0; Input 0 0 "7"] (load sample)
      = Normal v
    ∧ dispatch (Blur 0 0) v = Normal v'
    ∧ csvData v' = csvData v.
Proof.
  destruct (run [Focus 0 0; Input 0 0 "5"; Blur 0 0; DblClick 0 0; Input 0 0 "7"]
              (load sample)) as [v|] eqn:Hrun; [| by vm_compute in Hrun].
  destruct (dispatch (Blur 0 0) v) as [v'|] eqn:Hd.
  2:{ vm_compute in Hrun. injection Hrun as <-. by vm_compute in Hd. }
  exists v, v'. split; [reflexivity |]. split; [exact Hd |].
  assert (∃ r, tbody v !! 0 = Some r ∧ wiring r = RebuiltRow) as (r & Hr & Hw).
  { vm_compute in Hrun. injection Hrun as <-. eexists. split; reflexivity. }
  apply (added_and_rebuilt_rows_are_inert 0 0 "" v v' r (Blur 0 0) Hr); auto.
Defined.

(** ** What a draft commit writes *)



(** X5. A draft row commits exactly when the cell that loses the focus
    has content, whatever the other cells hold: with content in that
    cell the row is put in front of the data and [requestSave] is
    called, even if every other cell is blank; with that cell blank the
    listener does nothing, even if every other cell is filled. *)
Theorem draft_row_commits_iff_cell_has_content (p c : nat) (v : CSVView)
    (result : ParseResult) (r : TR) (x : Cell) :
  csvData v = Some result →
  tbody v !! p = Some r →
  cells r !! c = Some x →
  length (fields_or_empty result) ≤ length (cells r) →
  (has_content (textContent x) = true →
     ∃ v' newData result',
       draftBlur p c v = Normal v'
       ∧ csvData v' = Some result'
       ∧ data result' = newData :: data result
       ∧ saveRequests v' = S (saveRequests v))
  ∧ (has_content (textContent x) = false → draftBlur p c v = Normal v).
Proof.
  intros Hv Hr Hx Hlen. split; intros Hc.
  - destruct (draftBlur_commits p c v result r x Hv Hr Hx Hc Hlen)
      as (v' & nd & r' & Hd & _ & Hv' & Hdata & Hs).
    by exists v', nd, r'.
  - unfold draftBlur. rewrite Hr, Hx. simpl. by rewrite Hc.
Qed.

Lemma draft_row_commits_iff_cell_has_content_witness :
  ∃ v, dispatch (Input 0 1 "6") (load three_columns) = Normal v
    ∧ draftBlur 0 0 v = Normal v.
Proof.
  destruct (dispatch (Input 0 1 "6") (load three_columns)) as [v|] eqn:Hd;
    [| by vm_compute in Hd].
  exists v. split; [reflexivity |].
  vm_compute in Hd. injection Hd as <-.
  eapply (draft_row_commits_iff_cell_has_content 0 0); reflexivity || (simpl; lia).
Defined.



(** Column names that are array indices do not keep the column order in
    the committed row: for the columns 2 and 1 the row has the keys 1
    and 2, each with the text of its own cell. *)
Example index_columns_are_enumerated_first :
  collect ["2"; "1"] [mkCell "2" "x" Editing; mkCell "1" "y" Editing] []
  = Normal [("1", "y"); ("2", "x")].
Proof. reflexivity. Qed.

(** ** The shape of the table *)

Lemma obj_get_is_Some (k : string) (o : Row) : k ∈ o.*1 → is_Some (obj_get k o).
Proof.
  induction o as [|[k0 v0] o IH]; csimpl; intros Hin.
  - by apply elem_of_nil in Hin.
  - destruct (decide (k0 = k)) as [->|Hne]; [by eexists |].
    apply IH. apply elem_of_cons in Hin as [->|Hin]; done.
Qed.









(** ** The type of the view *)

Lemma length_append (s t : string) :
  String.length (s +:+ t) = String.length s + String.length t.
Proof.
  induction s as [|x s IH]; [done |].
  rewrite append_cons. simpl. by rewrite IH.
Qed.

(** X9. The view never reports the type it is registered under:
    [getViewType] is the extension followed by -view (csv-view for the
    registered extension), or text/plain without a file, and neither is
    the type that main.ts hands to [registerView] and
    [registerExtensions]. *)
Theorem view_type_is_never_the_registered_type (file : option TFile) :
  getViewType file ≠ CSV_VIEW_TYPE
  ∧ ∀ f, file = Some f → extension f ∈ registeredExtensions →
      getViewType file = "csv-view".
Proof.
  split.
  - destruct file as [f|]; simpl; [| done].
    intros Heq. pose proof (f_equal String.length Heq) as Hlen.
    rewrite length_append in Hlen. simpl in Hlen.
    destruct (extension f) as [|a [|b [|c [|? ?]]]]; simpl in Hlen; try lia.
    by injection Heq.
  - intros f -> Hin. apply list_elem_of_singleton in Hin. simpl. by rewrite Hin.
Qed.

Lemma view_type_is_never_the_registered_type_witness :
  getViewType (Some (mkTFile "csv" "table" "notes/table.csv")) = "csv-view".
Proof.
  eapply (view_type_is_never_the_registered_type (Some _)); [reflexivity |].
  simpl. apply list_elem_of_singleton. reflexivity.
Defined.

(** ** A column drag *)

Module ColumnDragFacts.
Import Resize ColumnDrag.

Lemma resize_rejected d i x t : ¬ accepted d x → resize d i x (Some t) = Some t.
Proof.
  unfold accepted, resize. intros Hx.
  destruct (Z.leb_spec 50 (startWidth d + (x - startX d))); [lia | done].
Qed.

Lemma resize_accepted d i x t :
  accepted d x →
  resize d i x (Some t)
  = Some {| header := setWidth i (startWidth d + (x - startX d)) (header t);
            body := setWidth i (startWidth d + (x - startX d)) <$> body t |}.
Proof.
  unfold accepted, resize. intros Hx.
  destruct (Z.leb_spec 50 (startWidth d + (x - startX d))); [| lia].
  unfold setWidth. by rewrite list_insert_insert_eq.
Qed.

Lemma resize_resize d i x y t t' :
  accepted d x →
  resize d i y (Some t) = Some t' →
  resize d i x (Some t') = resize d i x (Some t).
Proof.
  intros Hx Hy. destruct (decide (accepted d y)) as [Hacc|Hrej].
  - rewrite (resize_accepted d i y) in Hy by done. injection Hy as <-.
    rewrite !(resize_accepted d i x) by done. simpl. f_equal. f_equal.
    + unfold setWidth. by rewrite list_insert_insert_eq.
    + rewrite <- list_fmap_compose. apply list_fmap_ext. intros k row _. simpl.
      unfold setWidth. by rewrite list_insert_insert_eq.
  - rewrite (resize_rejected d i y) in Hy by done. by injection Hy as <-.
Qed.

Lemma moves_of_a_drag (d : Drag) (i : nat) (t : Table) (xs : list Z) :
  mice (MouseMove <$> xs)
    {| table := Some t; index := i; recorded := Some d; listening := true |}
  = {| table := match lastAccepted d xs with
                | Some x => resize d i x (Some t)
                | None => Some t
                end;
       index := i; recorded := Some d; listening := true |}.
Proof.
  unfold mice, lastAccepted.
  induction xs as [|x xs IH] using rev_ind; [done |].
  rewrite fmap_app, foldl_app, IH. cbn -[resize].
  rewrite filter_app, filter_cons, filter_nil.
  destruct (decide (accepted d x)) as [Hx|Hx].
  - rewrite last_snoc. f_equal.
    destruct (last (filter (accepted d) xs)) as [y|]; [| done].
    destruct (resize d i y (Some t)) as [t'|] eqn:Hy.
    + by apply (resize_resize d i x y).
    + unfold resize in Hy. by case_match.
  - rewrite List.app_nil_r. f_equal.
    destruct (last (filter (accepted d) xs)) as [y|]; [| by apply resize_rejected].
    destruct (resize d i y (Some t)) as [t'|] eqn:Hy; [by apply resize_rejected | done].
Qed.

End ColumnDragFacts.

(** X10. [resize] never sets a width below 50 pixels: when no width of
    the table that is set is below 50, none is after a mouse move,
    whatever the pointer position and the column. *)
Theorem resize_keeps_the_floor (d : Resize.Drag) (index : nat) (pageX : Z)
    (t t' : Resize.Table) :
  ColumnDrag.floored t →
  Resize.resize d index pageX (Some t) = Some t' →
  ColumnDrag.floored t'.
Proof.
  intros Hf Hr. destruct (decide (ColumnDrag.accepted d pageX)) as [Hx|Hx].
  - rewrite ColumnDragFacts.resize_accepted in Hr by done. simplify_eq.
    unfold ColumnDrag.floored in *. simpl.
    apply Forall_cons in Hf as [Hh Hb].
    assert (∀ row, Forall (λ w : option Z, ∀ z, w = Some z → (50 ≤ z)%Z) row →
                   Forall (λ w : option Z, ∀ z, w = Some z → (50 ≤ z)%Z)
                     (Resize.setWidth index
                        (Resize.startWidth d + (pageX - Resize.startX d)) row)) as Hset.
    { intros row Hrow. apply Forall_insert; [done |]. by intros z [= <-]. }
    apply Forall_cons. split; [by apply Hset |].
    apply Forall_fmap. eapply Forall_impl; [apply Hb |]. apply Hset.
  - rewrite ColumnDragFacts.resize_rejected in Hr by done. by simplify_eq.
Qed.

Lemma resize_keeps_the_floor_witness :
  ∃ t', Resize.resize (Resize.mkDrag 200 100) 1 120
          (Some (Resize.mkTable [Some 100%Z; None] [[None; Some 80%Z]])) = Some t'
    ∧ ColumnDrag.floored t'.
Proof.
  eexists. split; [reflexivity |].
  eapply (resize_keeps_the_floor (Resize.mkDrag 200 100) 1 120
            (Resize.mkTable [Some 100%Z; None] [[None; Some 80%Z]])); [| reflexivity].
  repeat constructor; intros z [= <-]; lia.
Defined.

(** X11. A drag is not cumulative: after a mousedown and any mouse
    moves, the table is the one a single move to the last accepted
    pointer position would give (a position is accepted when the start
    width plus the distance from the start position is at least 50), and
    it is the table before the drag when no position was accepted. After
    the mouseup further moves change nothing. *)
Theorem drag_applies_the_last_accepted_move (h : ColumnDrag.Handle) (t : Resize.Table)
    (x0 w0 : Z) (xs : list Z) :
  ColumnDrag.table h = Some t →
  let d := Resize.mkDrag x0 w0 in
  let h' := ColumnDrag.mice (ColumnDrag.MouseDown x0 w0 :: (ColumnDrag.MouseMove <$> xs)) h in
  ColumnDrag.table h'
  = match ColumnDrag.lastAccepted d xs with
    | Some x => Resize.resize d (ColumnDrag.index h) x (Some t)
    | None => Some t
    end
  ∧ ∀ ys, ColumnDrag.table
            (ColumnDrag.mice (ColumnDrag.MouseUp :: (ColumnDrag.MouseMove <$> ys)) h')
          = ColumnDrag.table h'.
Proof.
  intros Ht d h'.
  assert (h' = {| ColumnDrag.table :=
                    match ColumnDrag.lastAccepted d xs with
                    | Some x => Resize.resize d (ColumnDrag.index h) x (Some t)
                    | None => Some t
                    end;
                  ColumnDrag.index := ColumnDrag.index h;
                  ColumnDrag.recorded := Some d;
                  ColumnDrag.listening := true |}) as ->.
  { unfold h', ColumnDrag.mice. simpl. unfold ColumnDrag.startResize. rewrite Ht.
    apply ColumnDragFacts.moves_of_a_drag. }
  split; [done |].
  intros ys. unfold ColumnDrag.mice. simpl.
  induction ys as [|y ys IH] using rev_ind; [done |].
  rewrite fmap_app, foldl_app. simpl.
  assert (∀ zs h0, ColumnDrag.listening h0 = false →
            ColumnDrag.listening (foldl (λ h ev, ColumnDrag.mouse ev h) h0
                                    (ColumnDrag.MouseMove <$> zs)) = false) as Hoff.
  { clear. induction zs as [|z zs IH]; intros h0 Hl; [done |].
    simpl. rewrite Hl. by apply IH. }
  rewrite Hoff by done. done.
Qed.

Lemma drag_applies_the_last_accepted_move_witness :
  ColumnDrag.table
    (ColumnDrag.mice
       [ColumnDrag.MouseDown 200 100; ColumnDrag.MouseMove 260; ColumnDrag.MouseMove 230;
        ColumnDrag.MouseMove 100]
       (ColumnDrag.mkHandle (Some (Resize.mkTable [None; None] [[None; None]])) 0 None false))
  = Some (Resize.mkTable [Some 130%Z; None] [[Some 130%Z; None]]).
Proof.
  etrans.
  - apply (drag_applies_the_last_accepted_move
             (ColumnDrag.mkHandle (Some (Resize.mkTable [None; None] [[None; None]])) 0 None false)
             (Resize.mkTable [None; None] [[None; None]]) 200 100 [260; 230; 100]%Z).
    reflexivity.
  - reflexivity.
Defined.

(** ** Clearing the view *)

(** X12. [clear] empties the grid but keeps the table: after [clear],
    [getViewData] still returns the text of the table that was loaded,
    and no event changes the view any more. *)
Theorem clear_keeps_the_table (unparse : list Row → string) (v : CSVView)
    (evs : list Event) :
  getViewData unparse (clear v) = getViewData unparse v
  ∧ run evs (clear v) = Normal (clear v).
Proof.
  split; [done |].
  induction evs as [|ev evs IH]; [done |].
  simpl. by destruct ev.
Qed.

(** ** The two faces of a data cell *)

Lemma cellAt_cell (p c : nat) (v : CSVView) (r : TR) (x : Cell) :
  cellAt p c v = Some (r, x) → tbody v !! p = Some r ∧ cells r !! c = Some x.
Proof.
  unfold cellAt. destruct (tbody v !! p) as [r0|]; [| done].
  destruct (cells r0 !! c) as [x0|] eqn:Hx; simpl; [| done]. by intros [= <- <-].
Qed.

Lemma cellAt_setCell (p c : nat) (g : Cell → Cell) (v v' : CSVView) (r : TR) (x : Cell) :
  cellAt p c v = Some (r, x) →
  tbody v' = setCell p c g (tbody v) →
  cellAt p c v' = Some (mkTR (new_row r) (wiring r) (alter g c (cells r)), g x).
Proof.
  intros Hcell Hb. apply cellAt_cell in Hcell as [Hr Hx].
  unfold cellAt, setCell in *. rewrite Hb, list_lookup_alter_eq, Hr. simpl.
  by rewrite list_lookup_alter_eq, Hx.
Qed.

(** X13. A data cell goes back to its rendered face on blur only when
    its value changed: after the blur the cell holds the same text, and
    it shows the rendered markdown if the text differs from the value in
    the table, while with an unchanged text it stays as it was, so a
    cell opened by a double click and left untouched keeps showing its
    edit div. *)
Theorem data_cell_returns_to_display_iff_changed (p c rowIndex : nat) (v v' : CSVView)
    (r : TR) (x : Cell) (result : ParseResult) (row : Row) :
  cellAt p c v = Some (r, x) →
  wiring r = DataRow rowIndex →
  csvData v = Some result →
  data result !! rowIndex = Some row →
  dispatch (Blur p c) v = Normal v' →
  ∃ r' x', cellAt p c v' = Some (r', x')
    ∧ textContent x' = textContent x
    ∧ mode x' = if decide (obj_get (cell_field x) row = Some (textContent x))
                then mode x else Display.
Proof.
  intros Hcell Hw Hv Hrow Hd. simpl in Hd. rewrite Hcell, Hw in Hd.
  unfold dataCellBlur in Hd. simpl in Hd. rewrite Hv, Hrow in Hd.
  destruct (decide (obj_get (cell_field x) row = Some (textContent x))) as [Heq|Hne].
  - rewrite decide_False in Hd by (by intros H; apply H). simplify_eq.
    by exists r, x.
  - rewrite decide_True in Hd by done. simplify_eq.
    eexists _, _. split; [by eapply cellAt_setCell |]. done.
Qed.

Lemma data_cell_returns_to_display_iff_changed_witness :
  ∃ v v' r' x',
    dispatch (DblClick 1 0) (load sample) = Normal v
    ∧ dispatch (Blur 1 0) v = Normal v'
    ∧ cellAt 1 0 v' = Some (r', x')
    ∧ mode x' = Editing.
Proof.
  destruct (dispatch (DblClick 1 0) (load sample)) as [v|] eqn:Hv; [| by vm_compute in Hv].
  destruct (dispatch (Blur 1 0) v) as [v'|] eqn:Hd.
  2:{ vm_compute in Hv. injection Hv as <-. by vm_compute in Hd. }
  assert (∃ r x, cellAt 1 0 v = Some (r, x) ∧ wiring r = DataRow 0
                 ∧ csvData v = Some (Papa.parse sample)
                 ∧ mode x = Editing ∧ cell_field x = "a" ∧ textContent x = "1")
    as (r & x & Hcell & Hw & Hres & Hm & Hf & Ht)
    by (revert Hv; vm_compute; intros [= <-]; by repeat eexists).
  destruct (data_cell_returns_to_display_iff_changed 1 0 0 v v' r x _
              [("a", "1"); ("b", "2")] Hcell Hw Hres eq_refl Hd)
    as (r' & x' & Hcell' & _ & Hmode).
  exists v, v', r', x'. split; [reflexivity |]. split; [exact Hd |]. split; [exact Hcell' |].
  rewrite Hmode, Hf, Ht. simpl. exact Hm.
Defined.

(** ** Cell edits after a draft commit, and in either order *)

(** X14. After a draft row was committed, a data cell no longer writes
    into the row it shows: the commit put a row in front of the data,
    but the cell still uses the index it captured when the table was
    rendered. Whatever is committed through the cell of loaded row [i],
    that row, now at index [i + 1], stays as it was. *)
Theorem edit_after_draft_commit_misses_its_row (p c : nat) (v v1 v2 : CSVView)
    (result : ParseResult) (i : nat) (field newValue : string) (q d : nat) :
  csvData v = Some result →
  draftBlur p c v = Normal v1 →
  saveRequests v1 = S (saveRequests v) →
  dataCellBlur i field newValue q d v1 = Normal v2 →
  ∃ result2, csvData v2 = Some result2
    ∧ length (data result2) = S (length (data result))
    ∧ data result2 !! S i = data result !! i.
Proof.
  intros Hv Hd Hs Hblur.
  apply draftBlur_inv in Hd as [->|(r & res & nd & _ & Hres & _ & ->)]; [lia |].
  rewrite Hv in Hres. simplify_eq.
  unfold dataCellBlur in Hblur. simpl in Hblur.
  destruct ((nd :: data res) !! i) as [row|] eqn:Hrow;
    [| simplify_eq; by eexists].
  case_decide; simplify_eq; [| by eexists].
  eexists. split; [done |]. simpl. rewrite length_insert. split; [done |].
  rewrite list_lookup_insert_ne by lia. done.
Qed.

Lemma edit_after_draft_commit_misses_its_row_witness :
  ∃ v v1 v2 result2,
    run [Input 0 0 "5"; Input 0 1 "6"] (load sample) = Normal v
    ∧ draftBlur 0 0 v = Normal v1
    ∧ dataCellBlur 0 "a" "9" 1 0 v1 = Normal v2
    ∧ csvData v2 = Some result2
    ∧ data result2 !! 1 = Some [("a", "1"); ("b", "2")].
Proof.
  destruct (run [Input 0 0 "5"; Input 0 1 "6"] (load sample)) as [v|] eqn:Hrun;
    [| by vm_compute in Hrun].
  destruct (draftBlur 0 0 v) as [v1|] eqn:Hd.
  2:{ vm_compute in Hrun. injection Hrun as <-. by vm_compute in Hd. }
  destruct (dataCellBlur 0 "a" "9" 1 0 v1) as [v2|] eqn:Hblur.
  2:{ vm_compute in Hrun. injection Hrun as <-. vm_compute in Hd. injection Hd as <-.
      by vm_compute in Hblur. }
  assert (csvData v = Some (Papa.parse sample)) as Hv
    by (revert Hrun; vm_compute; by intros [= <-]).
  assert (saveRequests v1 = S (saveRequests v)) as Hs
    by (vm_compute in Hrun; injection Hrun as <-; vm_compute in Hd;
        injection Hd as <-; reflexivity).
  destruct (edit_after_draft_commit_misses_its_row 0 0 v v1 v2 _ 0 "a" "9" 1 0 Hv Hd Hs Hblur)
    as (result2 & Hv2 & _ & Hrow).
  exists v, v1, v2, result2.
  split; [reflexivity |]. split; [exact Hd |]. split; [exact Hblur |].
  split; [exact Hv2 |]. exact Hrow.
Defined.

Lemma obj_update_update (f g a b : string) (o : Row) :
  f ≠ g → obj_update f a (obj_update g b o) = obj_update g b (obj_update f a o).
Proof.
  intros Hne. induction o as [|[k v] o IH]; [done |]. simpl.
  destruct (decide (k = g)) as [Hkg|Hkg]; destruct (decide (k = f)) as [Hkf|Hkf];
    simplify_eq; simpl.
  - rewrite decide_False by done. by rewrite decide_True.
  - rewrite decide_True by done. by rewrite decide_False.
  - rewrite !decide_False by done. by rewrite IH.
Qed.

Lemma obj_update_insert (f g a b : string) (o : Row) :
  f ≠ g → obj_update f a (obj_insert g b o) = obj_insert g b (obj_update f a o).
Proof.
  intros Hne. induction o as [|[k v] o IH]; simpl.
  - by rewrite decide_False.
  - destruct (enumerated_before g k) eqn:Hgk; simpl.
    + rewrite decide_False by done.
      destruct (decide (k = f)) as [->|Hkf]; simpl; by rewrite Hgk.
    + destruct (decide (k = f)) as [->|Hkf]; simpl; rewrite Hgk; [done |].
      by rewrite IH.
Qed.

Lemma obj_set_comm (f g a b : string) (o : Row) :
  f ≠ g → is_Some (obj_get f o) →
  obj_set f a (obj_set g b o) = obj_set g b (obj_set f a o).
Proof.
  intros Hne [x Hf]. unfold obj_set at 1 4.
  rewrite obj_get_set_ne, Hf by done.
  unfold obj_set. rewrite obj_get_update_ne by done.
  destruct (obj_get g o).
  - by apply obj_update_update.
  - by apply obj_update_insert.
Qed.

Lemma editData_eq (i : nat) (f a : string) (rows : list Row) :
  editData i f a rows
  = match rows !! i with
    | Some row =>
        if decide (obj_get f row ≠ Some a) then <[i := obj_set f a row]> rows else rows
    | None => rows
    end.
Proof. reflexivity. Qed.

Lemma editData_lookup_ne (i j : nat) (g b : string) (rows : list Row) :
  i ≠ j → editData j g b rows !! i = rows !! i.
Proof.
  intros Hne. rewrite editData_eq.
  destruct (rows !! j); [| done]. case_decide; [| done].
  by rewrite list_lookup_insert_ne.
Qed.

Lemma editData_lookup_eq (i : nat) (g b : string) (rows : list Row) (row : Row) :
  rows !! i = Some row →
  ∃ row', editData i g b rows !! i = Some row'
    ∧ (row' = row ∨ row' = obj_set g b row)
    ∧ ∀ f, f ≠ g → obj_get f row' = obj_get f row.
Proof.
  intros Hrow. rewrite editData_eq, Hrow. case_decide.
  - exists (obj_set g b row).
    rewrite list_lookup_insert_eq by (by eapply lookup_lt_Some).
    split; [done |]. split; [by right |]. intros f Hf. by apply obj_get_set_ne.
  - exists row. split; [done |]. split; [by left | done].
Qed.

Lemma editData_commute (i j : nat) (f g a b : string) (rows : list Row) :
  i ≠ j ∨ f ≠ g →
  (i = j → ∀ row, rows !! i = Some row → is_Some (obj_get f row)) →
  editData i f a (editData j g b rows) = editData j g b (editData i f a rows).
Proof.
  intros Hdiff Hhas. destruct (decide (i = j)) as [<-|Hij].
  - destruct Hdiff as [?|Hfg]; [done |].
    destruct (rows !! i) as [row|] eqn:Hrow.
    2:{ rewrite (editData_eq i g b rows), (editData_eq i f a rows), Hrow.
        by rewrite !editData_eq, Hrow. }
    specialize (Hhas eq_refl row eq_refl).
    assert (i < length rows) as Hlt by (by eapply lookup_lt_Some).
    rewrite (editData_eq i g b rows), (editData_eq i f a rows), Hrow.
    destruct (decide (obj_get g row ≠ Some b)) as [Hg|Hg],
             (decide (obj_get f row ≠ Some a)) as [Hf|Hf];
      rewrite !editData_eq, ?list_lookup_insert_eq, ?Hrow by done.
    + rewrite !obj_get_set_ne by done.
      rewrite !decide_True by done.
      rewrite !list_insert_insert_eq. by rewrite obj_set_comm.
    + rewrite obj_get_set_ne by done.
      rewrite decide_False by done. by rewrite decide_True.
    + rewrite obj_get_set_ne by done.
      rewrite decide_True by done. by rewrite decide_False.
    + rewrite decide_False by done. by rewrite decide_False.
  - rewrite (editData_eq i f a (editData j g b rows)).
    rewrite (editData_eq j g b (editData i f a rows)).
    rewrite !editData_lookup_ne by done.
    rewrite !editData_eq.
    destruct (rows !! i) as [ri|] eqn:Hi, (rows !! j) as [rj|] eqn:Hj;
      repeat case_decide; try done.
    by rewrite list_insert_insert_ne.
Qed.

Lemma cellChanges_editData (i j : nat) (f g a b : string) (rows : list Row) :
  i ≠ j ∨ f ≠ g →
  cellChanges i f a (editData j g b rows) = cellChanges i f a rows.
Proof.
  intros Hdiff. unfold cellChanges. destruct (decide (i = j)) as [<-|Hij].
  - destruct Hdiff as [?|Hfg]; [done |].
    destruct (rows !! i) as [row|] eqn:Hrow.
    + destruct (editData_lookup_eq i g b rows row Hrow) as (row' & -> & _ & Hget).
      by rewrite Hget.
    + by rewrite editData_eq, !Hrow.
  - by rewrite editData_lookup_ne.
Qed.

Lemma dataCellBlur_editData (i : nat) (f a : string) (p c : nat) (v v' : CSVView)
    (result : ParseResult) :
  csvData v = Some result →
  dataCellBlur i f a p c v = Normal v' →
  csvData v' = Some {| data := editData i f a (data result);
                       meta_fields := meta_fields result |}
  ∧ saveRequests v' = (if cellChanges i f a (data result) then 1 else 0) + saveRequests v.
Proof.
  intros Hv Hd. unfold dataCellBlur in Hd. rewrite Hv in Hd.
  unfold editData, cellChanges.
  destruct (data result !! i) as [row|]; [| simplify_eq; by destruct result].
  destruct (decide (obj_get f row ≠ Some a)) as [Hne|Heq].
  - rewrite bool_decide_eq_true_2 by done. by simplify_eq.
  - rewrite bool_decide_eq_false_2 by done. simplify_eq. by destruct result.
Qed.

(** X15. Commits of two different data cells give the same table in
    either order: the same rows, the same columns and the same number
    of [requestSave] calls. The cells differ in the row index or in the
    field; when they are in the same row the row has the first field. *)
Theorem cell_edits_commute (i j : nat) (f g a b : string) (p c q d : nat)
    (v v1 v2 w1 w2 : CSVView) (result : ParseResult) :
  csvData v = Some result →
  i ≠ j ∨ f ≠ g →
  (i = j → ∀ row, data result !! i = Some row → is_Some (obj_get f row)) →
  dataCellBlur i f a p c v = Normal v1 →
  dataCellBlur j g b q d v1 = Normal v2 →
  dataCellBlur j g b q d v = Normal w1 →
  dataCellBlur i f a p c w1 = Normal w2 →
  csvData v2 = csvData w2 ∧ saveRequests v2 = saveRequests w2.
Proof.
  intros Hv Hdiff Hhas H1 H2 H3 H4.
  destruct (dataCellBlur_editData _ _ _ _ _ _ _ _ Hv H1) as [Hv1 Hs1].
  destruct (dataCellBlur_editData _ _ _ _ _ _ _ _ Hv1 H2) as [Hv2 Hs2].
  destruct (dataCellBlur_editData _ _ _ _ _ _ _ _ Hv H3) as [Hw1 Ht1].
  destruct (dataCellBlur_editData _ _ _ _ _ _ _ _ Hw1 H4) as [Hw2 Ht2].
  simpl in *. split.
  - rewrite Hv2, Hw2. do 2 f_equal. symmetry. by apply editData_commute.
  - rewrite Hs2, Ht2, Hs1, Ht1.
    rewrite (cellChanges_editData j i g f b a) by (destruct Hdiff; auto).
    rewrite (cellChanges_editData i j f g a b) by done. lia.
Qed.

Lemma cell_edits_commute_witness :
  ∃ v1 v2 w1 w2,
    dataCellBlur 0 "a" "9" 1 0 (load sample) = Normal v1
    ∧ dataCellBlur 0 "b" "8" 1 1 v1 = Normal v2
    ∧ dataCellBlur 0 "b" "8" 1 1 (load sample) = Normal w1
    ∧ dataCellBlur 0 "a" "9" 1 0 w1 = Normal w2
    ∧ csvData v2 = csvData w2.
Proof.
  destruct (dataCellBlur 0 "a" "9" 1 0 (load sample)) as [v1|] eqn:H1;
    [| by vm_compute in H1].
  destruct (dataCellBlur 0 "b" "8" 1 1 v1) as [v2|] eqn:H2.
  2:{ vm_compute in H1. injection H1 as <-. by vm_compute in H2. }
  destruct (dataCellBlur 0 "b" "8" 1 1 (load sample)) as [w1|] eqn:H3;
    [| by vm_compute in H3].
  destruct (dataCellBlur 0 "a" "9" 1 0 w1) as [w2|] eqn:H4.
  2:{ vm_compute in H3. injection H3 as <-. by vm_compute in H4. }
  exists v1, v2, w1, w2. split; [reflexivity |].
  split; [exact H2 |]. split; [reflexivity |]. split; [exact H4 |].
  eapply (cell_edits_commute 0 0 "a" "b" "9" "8" 1 0 1 1 (load sample) v1 v2 w1 w2);
    [reflexivity | by right | | exact H1 | exact H2 | exact H3 | exact H4].
  intros _ row [= <-]. by eexists.
Defined.

(** A blur of the focused draft cell of an active grid. *)
Lemma active_never_throws_witness :
  ∃ v', dispatch (Blur 0 0) (draftFocus (withFocus (Some (0, 0)) (load sample))) = Normal v'.
Proof.
  apply (active_never_throws Papa.parse).
  eapply active_step; [apply (active_load Papa.parse sample fresh) |].
  eapply (step_focus Papa.parse 0 0); [reflexivity | by eexists | reflexivity].
Defined.

(** ** The read-only variant *)

(** X17. In the read-only variant of the view the cells line up with
    the header: when the column names are distinct and every row object
    has exactly them as keys, in column order, every body row has one
    cell per column and the cell under a column holds the value of that
    column, as the editable variant shows it. *)
Theorem readonly_cells_line_up (result : ParseResult) (fields : list string)
    (k : nat) (row : Row) :
  meta_fields result = Some fields →
  NoDup fields →
  row.*1 = fields →
  data result !! k = Some row →
  (renderTable_readonly result).1 = fields
  ∧ ∃ tds, (renderTable_readonly result).2 !! k = Some tds
      ∧ length tds = length fields
      ∧ tds = textContent <$> markdownCells fields row.
Proof.
  intros Hm Hnd Hkeys Hrow. unfold renderTable_readonly, fields_or_empty. simpl.
  rewrite Hm. split; [done |].
  rewrite list_lookup_fmap, Hrow. simpl. eexists. split; [done |].
  split; [by rewrite !length_fmap, <- Hkeys, length_fmap |].
  assert (row.*2 = Papa.row_cells fields row) as ->.
  { rewrite <- Hkeys. symmetry. apply row_cells_values. by rewrite Hkeys. }
  unfold markdownCells, Papa.row_cells. rewrite <- !list_fmap_compose.
  apply list_fmap_ext. intros n f Hf. simpl.
  destruct (obj_get_is_Some f row) as [val ->]; [| done].
  rewrite Hkeys. by eapply list_elem_of_lookup_2.
Qed.

Lemma readonly_cells_line_up_witness :
  (renderTable_readonly (Papa.parse sample)).2 !! 1 = Some ["3"; "4"].
Proof.
  destruct (readonly_cells_line_up (Papa.parse sample) ["a"; "b"] 1
              [("a", "3"); ("b", "4")]) as (_ & tds & Htds & _ & ->);
    [reflexivity | | reflexivity | reflexivity | exact Htds].
  apply (bool_decide_unpack _). by vm_compute.
Defined.

(** ** Where the rows of the body are *)

Lemma wiring_setCell (p c : nat) (g : Cell → Cell) (rows : list TR) :
  wiring <$> setCell p c g rows = wiring <$> rows.
Proof.
  unfold setCell. revert p. induction rows as [|r rows IH]; intros [|p]; csimpl; try done.
  by rewrite IH.
Qed.

Lemma replicate_snoc {A} (k : nat) (x : A) : replicate k x ++ [x] = replicate (S k) x.
Proof. induction k as [|k IH]; [done |]. simpl. by rewrite IH. Qed.

Lemma wiring_dataRows (fields : list string) (rows : list Row) :
  wiring <$> imap (dataRow fields) rows = DataRow <$> seq 0 (length rows).
Proof.
  apply list_eq. intros i.
  rewrite list_lookup_fmap, list_lookup_imap, !list_lookup_fmap.
  destruct (rows !! i) as [row|] eqn:Hrow; simpl.
  - rewrite lookup_seq_lt by (by eapply lookup_lt_Some). done.
  - rewrite lookup_seq_ge by (by apply lookup_ge_None). done.
Qed.

(** The rows of the body, top down: the draft row of [renderTable] or
    what its commit made of it, the data rows in the order of the load,
    the draft rows that [addNewEmptyRow] added. *)
Lemma layout_dispatch (n : nat) (ev : Event) (v v' : CSVView) :
  (∃ first k, (first = DraftRow ∨ first = RebuiltRow)
     ∧ wiring <$> tbody v
       = first :: (DataRow <$> seq 0 n) ++ replicate k SpawnedDraftRow) →
  dispatch ev v = Normal v' →
  ∃ first k, (first = DraftRow ∨ first = RebuiltRow)
    ∧ wiring <$> tbody v'
      = first :: (DataRow <$> seq 0 n) ++ replicate k SpawnedDraftRow.
Proof.
  intros (first & k & Hfirst & Hrows) Hd.
  apply dispatch_cases in Hd
    as [[f ->]|[(p & c & _ & ->)|[(p & c & g & f & _ & ->)
       |[(p & c & x & r0 & i & res & row & _ & _ & _ & _ & _ & ->)
        |(p & c & x & r0 & res & nd & Hcell & Hw & _ & _ & _ & ->)]]]]; simpl.
  - by exists first, k.
  - exists first, (S k). split; [done |].
    rewrite fmap_app, Hrows, <- replicate_snoc. csimpl.
    by rewrite <- List.app_assoc.
  - exists first, k. by rewrite wiring_setCell.
  - exists first, k. by rewrite wiring_setCell.
  - exists RebuiltRow, k. split; [by right |].
    apply cellAt_row in Hcell.
    assert ((wiring <$> tbody v) !! p = Some DraftRow) as Hp
      by (by rewrite list_lookup_fmap, Hcell, <- Hw).
    rewrite list_fmap_insert, Hrows. rewrite Hrows in Hp.
    destruct p as [|p]; [done |]. exfalso. simpl in Hp.
    apply list_elem_of_lookup_2, elem_of_app in Hp as [Hp|Hp].
    + apply list_elem_of_fmap in Hp as (? & ? & _). done.
    + by apply elem_of_replicate in Hp as [? _].
Qed.

(** X18. The rows of the body never move: after a load that found
    columns and any events, the first row of the body is the draft row
    of [renderTable] or the row its commit made of it, the data rows
    follow in the order and with the row indices of the load, and every
    draft row that [addNewEmptyRow] added comes below all data rows. *)
Theorem added_draft_rows_are_below_the_data (Papa_parse : string → ParseResult)
    (text : string) (v0 : CSVView) (fields : list string) (evs : list Event)
    (v' : CSVView) :
  meta_fields (Papa_parse text) = Some fields →
  run evs (setViewData Papa_parse text v0) = Normal v' →
  ∃ first k, (first = DraftRow ∨ first = RebuiltRow)
    ∧ wiring <$> tbody v'
      = first :: (DataRow <$> seq 0 (length (data (Papa_parse text))))
        ++ replicate k SpawnedDraftRow.
Proof.
  intros Hm Hrun.
  apply (run_preserves
           (λ w, ∃ first k, (first = DraftRow ∨ first = RebuiltRow)
              ∧ wiring <$> tbody w
                = first :: (DataRow <$> seq 0 (length (data (Papa_parse text))))
                  ++ replicate k SpawnedDraftRow))
    with (evs := evs) (v := setViewData Papa_parse text v0); [| | done].
  - intros ev w w'. apply layout_dispatch.
  - exists DraftRow, 0. split; [by left |].
    unfold setViewData, renderTable. simpl. rewrite Hm. csimpl.
    by rewrite wiring_dataRows, List.app_nil_r.
Qed.

Lemma added_draft_rows_are_below_the_data_witness :
  ∃ v' first k,
    run [Focus 0 0; Input 0 0 "5"; Blur 0 0; Focus 3 0]
      (setViewData Papa.parse sample fresh) = Normal v'
    ∧ wiring <$> tbody v'
      = first :: (DataRow <$> seq 0 2) ++ replicate k SpawnedDraftRow.
Proof.
  destruct (run [Focus 0 0; Input 0 0 "5"; Blur 0 0; Focus 3 0]
              (setViewData Papa.parse sample fresh)) as [v'|] eqn:Hrun;
    [| by vm_compute in Hrun].
  edestruct (added_draft_rows_are_below_the_data Papa.parse sample fresh)
    as (first & k & _ & Hrows); [reflexivity | exact Hrun |].
  exists v', first, k. split; [reflexivity | exact Hrows].
Defined.
